(** * Ledger engine of codeguide-supabase-transactions-api

    A shallow embedding of the transactional core of the repository:

    - the PL/pgSQL functions [handle_payment] and [get_user_balance] of the
      transaction-system migration, over the [users], [balances],
      [transactions] and [mutations] tables declared in the same migration;
    - the amount rules of [paymentRequestSchema] and [balanceUpdateSchema]
      (lib/api-schemas.ts) and [isValidAmount] (lib/api-route-helpers.ts);
    - the [GET /api/mut] and [GET_SUMMARY] handlers of the mutation route,
      and the [GET /api/trx] handler of the transaction route;
    - the SQL function [validate_api_key], the API-key middleware
      (lib/api-auth-middleware.ts, middleware.ts) and [requireAuth] and
      [getUserId] (lib/api-route-helpers.ts);
    - the route wrapper [createApiHandler] with [withRequestLogger] and
      [withValidation], the error factory, and the handlers of
      [POST /api/pay] and of [/api/balance];
    - the metrics collector [PerformanceMetrics] with the sums of
      [GET /api/metrics], and the loop of the health handler.

    Scope of the model.  Values of SQL type NUMERIC are the finite ones and
    are modelled as rationals ([Q]); a NUMERIC(15,2) column holds an integer
    number of hundredths ([Z]) and a value stored into it is rounded half
    away from zero and range-checked, as PostgreSQL does on assignment.  UUID
    values are their canonical text.  Required parameters ([p_sender_id],
    [p_receiver_id], [p_amount]) are non-NULL, which is what the API layer
    sends; optional parameters are [option] values with [None] for NULL.
    Execution is sequential: one call runs against one database state.

    A request is its path and its headers, keyed by lower-case name.  The
    Supabase client is the database itself: a query fails only for a reason
    the tables give (no row, a constraint, a numeric overflow), never for
    the transport.  Of a route built by [createApiHandler] the model keeps
    the answer and the database; timing, log lines and the timeout are left
    out, the handler being taken to finish in time.  Counts and durations
    of the metrics collector are whole numbers. *)

From Stdlib Require Import ZArith QArith String Lia Lqa.
From stdpp Require Import gmap strings sorting.

Local Open Scope Z_scope.

(** ** SQL values *)

(** UUID: canonical lower-case text, compared as text. *)
Abbreviation uuid := string (only parsing).
(** TIMESTAMP WITH TIME ZONE: an instant on some integer clock. *)
Abbreviation timestamptz := Z (only parsing).
(** NUMERIC without typmod: any finite exact decimal. *)
Abbreviation numeric := Q (only parsing).
(** NUMERIC(15,2): a count of hundredths. *)
Abbreviation numeric_15_2 := Z (only parsing).

Definition of_15_2 (c : numeric_15_2) : numeric := c # 100.

(** Errors the statements of [handle_payment] can raise. *)
Inductive sql_error : Type :=
| numeric_value_out_of_range
| not_null_violation (column : string)
| check_violation (constraint : string)
| unique_violation (constraint : string)
| foreign_key_violation (constraint : string).

Definition SQLERRM (e : sql_error) : string :=
  match e with
  | numeric_value_out_of_range => "numeric field overflow"
  | not_null_violation c => "null value in column " +:+ c +:+ " violates not-null constraint"
  | check_violation c => "new row violates check constraint " +:+ c
  | unique_violation c => "duplicate key value violates unique constraint " +:+ c
  | foreign_key_violation c => "insert on table violates foreign key constraint " +:+ c
  end.

(** Rounding of a NUMERIC to two fractional digits, ties away from zero,
    counted in hundredths. *)
Definition round_half_away (q : numeric) : Z :=
  let n := Qnum q * 100 in
  let d := Z.pos (Qden q) in
  if 0 <=? n then (2 * n + d) / (2 * d) else - ((2 * (- n) + d) / (2 * d)).

(** Assignment to a NUMERIC(15,2) column: round to scale 2, then at most 13
    digits may stay left of the decimal point. *)
Definition to_15_2 (q : numeric) : sql_error + numeric_15_2 :=
  let c := round_half_away q in
  if Z.abs c <? 10 ^ 15 then inr c else inl numeric_value_out_of_range.

Definition Qlt_bool (a b : Q) : bool := negb (Qle_bool b a).

(** ** JSON *)

Inductive json_value : Type :=
| JNull
| JBool (b : bool)
| JText (s : string)
| JNumber (q : numeric).

Definition json := list (string * json_value).

Definition json_build_object (kvs : list (string * json_value)) : json := kvs.

Fixpoint json_get (k : string) (j : json) : option json_value :=
  match j with
  | [] => None
  | (k', v) :: j' => if String.eqb k k' then Some v else json_get k j'
  end.

(** ** Tables *)

(** [users]: the columns the ledger reads; [banned] and [verified] have a
    default but no NOT NULL constraint. *)
Record user_row := {
  u_banned : option bool;
  u_verified : option bool
}.

Record balance_row := {
  b_amount : numeric_15_2;
  b_updated_at : timestamptz
}.

(** [transactions], without [items] and [unikcode], which [handle_payment]
    leaves at their defaults. *)
Record transaction_row := {
  t_id : uuid;
  t_sender_id : uuid;
  t_receiver_id : uuid;
  t_amount : numeric_15_2;
  t_paid : bool;
  t_orderid : string;
  t_bayarvia : string;
  t_grandtotal : numeric_15_2;
  t_namaproduk : option string;
  t_catatan : option string;
  t_created_at : timestamptz;
  t_updated_at : timestamptz
}.

Inductive mutation_type : Type := debit | credit.

Global Instance mutation_type_eq_dec : EqDecision mutation_type.
Proof. solve_decision. Defined.

Record mutation_row := {
  m_id : uuid;
  m_user_id : uuid;
  m_balance : numeric_15_2;
  m_prev_balance : numeric_15_2;
  m_type : mutation_type;
  m_catatan : option string;
  m_transaction_id : option uuid;
  m_created_at : timestamptz
}.

(** The persisted state: [users] and [balances] keyed by their primary key,
    [transactions] and [mutations] in insertion order. *)
Record database := {
  users : gmap uuid user_row;
  balances : gmap uuid balance_row;
  transactions : list transaction_row;
  mutations : list mutation_row
}.

(** A running call: the database as the call sees it and the balance rows it
    has locked with FOR UPDATE, oldest first. *)
Record pg_state := {
  db : database;
  row_locks : list uuid
}.

(** What the server supplies during one call: the transaction's clock, its
    rendering by [to_char(now(), 'YYYYMMDD_HH24MISS')], and the results of
    the calls of [gen_random_uuid()]. *)
Record env := {
  now_utc : timestamptz;
  to_char_now : string;
  orderid_uuid : uuid;
  transaction_uuid : uuid;
  debit_mutation_uuid : uuid;
  credit_mutation_uuid : uuid
}.

Definition set_balances (f : gmap uuid balance_row → gmap uuid balance_row)
    (d : database) : database :=
  {| users := users d; balances := f (balances d);
     transactions := transactions d; mutations := mutations d |}.

Definition add_transaction (t : transaction_row) (d : database) : database :=
  {| users := users d; balances := balances d;
     transactions := transactions d ++ [t]; mutations := mutations d |}.

Definition add_mutation (m : mutation_row) (d : database) : database :=
  {| users := users d; balances := balances d;
     transactions := transactions d; mutations := mutations d ++ [m] |}.

(** ** PL/pgSQL blocks

    A statement either raises, or executes RETURN, or falls through to the
    next statement with a value. *)
Inductive outcome (A : Type) : Type :=
| Raise (e : sql_error)
| Return (j : json) (s : pg_state)
| Next (a : A) (s : pg_state).
Arguments Raise {A} e.
Arguments Return {A} j s.
Arguments Next {A} a s.

Definition plpgsql (A : Type) : Type := pg_state → outcome A.

Global Instance plpgsql_ret : MRet plpgsql := λ A a s, Next a s.
Global Instance plpgsql_bind : MBind plpgsql := λ A B f m s,
  match m s with
  | Raise e => Raise e
  | Return j s' => Return j s'
  | Next a s' => f a s'
  end.

Definition RAISE {A} (e : sql_error) : plpgsql A := λ _, Raise e.
Definition RETURN {A} (j : json) : plpgsql A := λ s, Return j s.
(** [IF c THEN RETURN j; END IF;] *)
Definition IF_RETURN (c : bool) (j : json) : plpgsql unit :=
  λ s, if c then Return j s else Next () s.
Definition query {A} (f : database → A) : plpgsql A := λ s, Next (f (db s)) s.
Definition modify (f : database → database) : plpgsql unit :=
  λ s, Next () {| db := f (db s); row_locks := row_locks s |}.
Definition lock_row (k : uuid) : plpgsql unit :=
  λ s, Next () {| db := db s; row_locks := row_locks s ++ [k] |}.
(** Coercion of a value to a NUMERIC(15,2) column. *)
Definition cast_15_2 (q : numeric) : plpgsql numeric_15_2 :=
  λ s, match to_15_2 q with inl e => Raise e | inr c => Next c s end.
(** A NOT NULL column. *)
Definition not_null {A} (column : string) (o : option A) : plpgsql A :=
  λ s, match o with Some a => Next a s | None => Raise (not_null_violation column) end.
(** A constraint checked when a row is written. *)
Definition guard_sql (ok : bool) (e : sql_error) : plpgsql unit :=
  λ s, if ok then Next () s else Raise e.

Definition COALESCE {A} (o : option A) (d : A) : A := default d o.

(** A statement that never executes RETURN. *)
Definition no_return {A} (m : plpgsql A) : Prop :=
  ∀ s j s', m s ≠ Return j s'.

(** ** SQL statements of the migration *)

(** [EXISTS (SELECT 1 FROM users WHERE id = k AND banned = false)] *)
Definition active_user_exists (k : uuid) (d : database) : bool :=
  match users d !! k with
  | Some u => bool_decide (u_banned u = Some false)
  | None => false
  end.

(** [EXISTS (SELECT 1 FROM transactions WHERE orderid = o)] *)
Definition orderid_exists (o : string) (d : database) : bool :=
  existsb (λ t, String.eqb (t_orderid t) o) (transactions d).

Definition transaction_id_exists (k : uuid) (d : database) : bool :=
  existsb (λ t, String.eqb (t_id t) k) (transactions d).

Definition mutation_id_exists (k : uuid) (d : database) : bool :=
  existsb (λ m, String.eqb (m_id m) k) (mutations d).

Definition user_exists (k : uuid) (d : database) : bool :=
  bool_decide (is_Some (users d !! k)).

(** [SELECT amount INTO v FROM balances WHERE user_id = k FOR UPDATE]:
    the row, when there is one, is locked and its amount read; without a row
    nothing is locked and the variable stays NULL. *)
Definition select_amount_for_update (k : uuid) : plpgsql (option numeric) :=
  row ← query (λ d, balances d !! k);
  match row with
  | Some r => lock_row k ;; mret (Some (of_15_2 (b_amount r)))
  | None => mret None
  end.

(** [UPDATE balances SET amount = f(amount), updated_at = now WHERE user_id = k] *)
Definition update_balance (e : env) (k : uuid) (f : numeric → numeric) : plpgsql unit :=
  row ← query (λ d, balances d !! k);
  match row with
  | Some r =>
      c ← cast_15_2 (f (of_15_2 (b_amount r)));
      modify (set_balances <[k := {| b_amount := c; b_updated_at := now_utc e |}]>)
  | None => mret ()
  end.

(** [INSERT INTO balances (user_id, amount) VALUES (k, a)] *)
Definition insert_balance (e : env) (k : uuid) (a : numeric) : plpgsql unit :=
  c ← cast_15_2 a;
  taken ← query (λ d, bool_decide (is_Some (balances d !! k)));
  guard_sql (negb taken) (unique_violation "balances_pkey") ;;
  known ← query (user_exists k);
  guard_sql known (foreign_key_violation "balances_user_id_fkey") ;;
  modify (set_balances <[k := {| b_amount := c; b_updated_at := now_utc e |}]>).

(** [INSERT INTO transactions (sender_id, receiver_id, amount, paid, orderid,
    bayarvia, grandtotal, namaproduk, catatan) VALUES (...) RETURNING id] *)
Definition insert_transaction (e : env) (sender receiver : uuid)
    (amount : numeric) (paid : bool) (orderid : string)
    (bayarvia : option string) (grandtotal : numeric)
    (namaproduk catatan : option string) : plpgsql uuid :=
  a ← cast_15_2 amount;
  g ← cast_15_2 grandtotal;
  via ← not_null "bayarvia" bayarvia;
  guard_sql (0 <? a) (check_violation "transactions_amount_check") ;;
  id_taken ← query (transaction_id_exists (transaction_uuid e));
  guard_sql (negb id_taken) (unique_violation "transactions_pkey") ;;
  order_taken ← query (orderid_exists orderid);
  guard_sql (negb order_taken) (unique_violation "transactions_orderid_key") ;;
  sender_known ← query (user_exists sender);
  guard_sql sender_known (foreign_key_violation "transactions_sender_id_fkey") ;;
  receiver_known ← query (user_exists receiver);
  guard_sql receiver_known (foreign_key_violation "transactions_receiver_id_fkey") ;;
  modify (add_transaction
    {| t_id := transaction_uuid e; t_sender_id := sender;
       t_receiver_id := receiver; t_amount := a; t_paid := paid;
       t_orderid := orderid; t_bayarvia := via; t_grandtotal := g;
       t_namaproduk := namaproduk; t_catatan := catatan;
       t_created_at := now_utc e; t_updated_at := now_utc e |}) ;;
  mret (transaction_uuid e).

(** [INSERT INTO mutations (user_id, balance, prev_balance, type, catatan,
    transaction_id) VALUES (...)], the row's id being [id]. *)
Definition insert_mutation (e : env) (id user : uuid)
    (balance prev_balance : numeric) (type : mutation_type)
    (catatan : string) (transaction_id : uuid) : plpgsql unit :=
  b ← cast_15_2 balance;
  pb ← cast_15_2 prev_balance;
  id_taken ← query (mutation_id_exists id);
  guard_sql (negb id_taken) (unique_violation "mutations_pkey") ;;
  user_known ← query (user_exists user);
  guard_sql user_known (foreign_key_violation "mutations_user_id_fkey") ;;
  trx_known ← query (transaction_id_exists transaction_id);
  guard_sql trx_known (foreign_key_violation "mutations_transaction_id_fkey") ;;
  modify (add_mutation
    {| m_id := id; m_user_id := user; m_balance := b; m_prev_balance := pb;
       m_type := type; m_catatan := Some catatan;
       m_transaction_id := Some transaction_id; m_created_at := now_utc e |}).

(** ** [handle_payment] *)

Definition error_json (message code : string) : json :=
  json_build_object [("error", JText message); ("code", JText code)].

(** [COALESCE(p_orderid, 'TRX_' || to_char(now(), 'YYYYMMDD_HH24MISS') || '_'
    || substr(gen_random_uuid()::text, 1, 8))] *)
Definition final_orderid (e : env) (p_orderid : option string) : string :=
  COALESCE p_orderid
    ("TRX_" +:+ to_char_now e +:+ "_" +:+ substring 0 8 (orderid_uuid e)).

(** The statements between BEGIN and EXCEPTION. *)
Definition handle_payment_body (e : env) (p_sender_id p_receiver_id : uuid)
    (p_amount : numeric) (p_orderid p_bayarvia p_namaproduk p_catatan : option string)
    : plpgsql Empty_set :=
  IF_RETURN (Qle_bool p_amount 0)
    (error_json "Amount must be greater than 0" "INVALID_AMOUNT") ;;
  IF_RETURN (String.eqb p_sender_id p_receiver_id)
    (error_json "Cannot send to yourself" "SELF_TRANSFER") ;;
  sender_ok ← query (active_user_exists p_sender_id);
  IF_RETURN (negb sender_ok)
    (error_json "Sender not found or banned" "SENDER_NOT_FOUND") ;;
  receiver_ok ← query (active_user_exists p_receiver_id);
  IF_RETURN (negb receiver_ok)
    (error_json "Receiver not found or banned" "RECEIVER_NOT_FOUND") ;;
  let v_final_orderid := final_orderid e p_orderid in
  duplicate ← query (orderid_exists v_final_orderid);
  IF_RETURN duplicate (error_json "Order ID already exists" "DUPLICATE_ORDERID") ;;
  v_sender_balance ← select_amount_for_update p_sender_id;
  v_receiver_balance ← select_amount_for_update p_receiver_id;
  match v_sender_balance with
  | None => RETURN (error_json "Sender balance not found" "SENDER_BALANCE_NOT_FOUND")
  | Some v_sender_balance =>
    IF_RETURN (Qlt_bool v_sender_balance p_amount)
      (error_json "Insufficient funds" "INSUFFICIENT_FUNDS") ;;
    let v_sender_prev_balance := v_sender_balance in
    let v_receiver_prev_balance := COALESCE v_receiver_balance 0%Q in
    update_balance e p_sender_id (λ amount, amount - p_amount)%Q ;;
    v_receiver_balance ←
      match v_receiver_balance with
      | Some b =>
          update_balance e p_receiver_id (λ amount, amount + p_amount)%Q ;;
          mret b
      | None =>
          insert_balance e p_receiver_id p_amount ;;
          mret p_amount
      end;
    v_transaction_id ←
      insert_transaction e p_sender_id p_receiver_id p_amount true
        v_final_orderid p_bayarvia p_amount p_namaproduk p_catatan;
    insert_mutation e (debit_mutation_uuid e) p_sender_id
      (v_sender_balance - p_amount)%Q v_sender_prev_balance debit
      v_transaction_id v_transaction_id ;;
    insert_mutation e (credit_mutation_uuid e) p_receiver_id
      (v_receiver_balance + p_amount)%Q v_receiver_prev_balance credit
      v_transaction_id v_transaction_id ;;
    RETURN (json_build_object
      [("success", JBool true);
       ("transaction_id", JText v_transaction_id);
       ("orderid", JText v_final_orderid);
       ("amount", JNumber p_amount);
       ("sender_new_balance", JNumber (v_sender_balance - p_amount)%Q);
       ("receiver_new_balance", JNumber (v_receiver_balance + p_amount)%Q)])
  end.

(** The function: the block with its [EXCEPTION WHEN OTHERS] handler.  An
    error raised in the block undoes what the block did and is answered by
    the handler. *)
Definition handle_payment_in (e : env) (p_sender_id p_receiver_id : uuid)
    (p_amount : numeric) (p_orderid p_bayarvia p_namaproduk p_catatan : option string)
    (s : pg_state) : json * pg_state :=
  match handle_payment_body e p_sender_id p_receiver_id p_amount
          p_orderid p_bayarvia p_namaproduk p_catatan s with
  | Return j s' => (j, s')
  | Raise err => (error_json (SQLERRM err) "DATABASE_ERROR", s)
  | Next x _ => match x with end
  end.

(** One call of the function against a database, no lock held at entry. *)
Definition handle_payment (e : env) (p_sender_id p_receiver_id : uuid)
    (p_amount : numeric) (p_orderid p_bayarvia p_namaproduk p_catatan : option string)
    (d : database) : json * pg_state :=
  handle_payment_in e p_sender_id p_receiver_id p_amount
    p_orderid p_bayarvia p_namaproduk p_catatan {| db := d; row_locks := [] |}.

(** ** [get_user_balance] *)

(** [SELECT amount INTO v FROM balances WHERE user_id = k] *)
Definition select_amount (k : uuid) (d : database) : option numeric :=
  (λ r, of_15_2 (b_amount r)) <$> balances d !! k.

Definition get_user_balance (user_id_param : uuid) (d : database) : numeric :=
  let v_balance := select_amount user_id_param d in
  COALESCE v_balance 0%Q.

(** ** Amount rules of the API layer

    The request amount is the decimal written in the JSON body, which is
    also the value PostgREST hands to [p_amount]. *)

(** [z.number().positive().min(0.01).max(999999999.99)] of
    [paymentRequestSchema]. *)
Definition paymentRequestSchema_amount (amount : numeric) : bool :=
  Qlt_bool 0 amount && Qle_bool (1 # 100) amount
  && Qle_bool amount (99999999999 # 100).

(** [(val * 100) % 1 === 0], the two-decimal-places test of
    [balanceUpdateSchema] and of [isValidAmount], in exact arithmetic. *)
Definition at_most_2_decimal_places (val : numeric) : bool :=
  (Qnum val * 100) mod Z.pos (Qden val) =? 0.

(** [z.number().min(0).max(999999999.99).refine(...)] of
    [balanceUpdateSchema]. *)
Definition balanceUpdateSchema_amount (amount : numeric) : bool :=
  Qle_bool 0 amount && Qle_bool amount (99999999999 # 100)
  && at_most_2_decimal_places amount.

(** [isValidAmount] on a number. *)
Definition isValidAmount (num : numeric) : bool :=
  Qlt_bool 0 num && at_most_2_decimal_places num.

(** Sum of the amounts of all balance rows, in hundredths. *)
Definition total_balances (d : database) : Z :=
  map_fold (λ _ row acc, b_amount row + acc) 0 (balances d).

(** ** The mutation history route *)
Module MutRoute.

(** Numbers of the response are counted in hundredths, so the sums below are
    exact. *)
Record summary := {
  total_debits : Z;
  total_credits : Z;
  net_change : Z
}.

Record pagination := {
  limit : Z;
  offset : Z;
  total : Z;
  hasMore : bool
}.

Inductive response : Type :=
| createErrorResponse (message code : string) (status : Z)
| createSuccessResponse (mutations : list mutation_row)
    (pagination : pagination) (summary : summary).

(** The refinements of [paginationQuerySchema] on the parsed numbers. *)
Definition paginationQuerySchema (limit offset : Z) : bool :=
  (0 <? limit) && (limit <=? 100) && (0 <=? offset).

Definition eq_user (userId : uuid) (m : mutation_row) : bool :=
  String.eqb (m_user_id m) userId.

Definition eq_type (type : mutation_type) (m : mutation_row) : bool :=
  bool_decide (m_type m = type).

(** [.order('created_at', { ascending: false })]: newest first, rows of
    equal time in table order. *)
Fixpoint insert_by_created_at (m : mutation_row) (l : list mutation_row)
    : list mutation_row :=
  match l with
  | [] => [m]
  | x :: l' =>
      if m_created_at x <=? m_created_at m then m :: l
      else x :: insert_by_created_at m l'
  end.

Definition order_created_at_desc (l : list mutation_row) : list mutation_row :=
  foldr insert_by_created_at [] l.

(** [.range(from, to)]: rows [from] to [to], both included. *)
Definition range (from to : Z) (l : list mutation_row) : list mutation_row :=
  take (Z.to_nat (to - from + 1)) (drop (Z.to_nat from) l).

(** The count query: [.eq('user_id', userId)], and [.eq('type', type)] when
    a type is given. *)
Definition count_query (userId : uuid) (type : option mutation_type)
    (d : database) : Z :=
  let query := List.filter (eq_user userId) (mutations d) in
  let query :=
    match type with
    | Some t => List.filter (eq_type t) query
    | None => query
    end in
  Z.of_nat (length query).

(** The page query: [.eq('user_id', userId).order(...).range(offset,
    offset + limit - 1)]. *)
Definition page_query (userId : uuid) (limit offset : Z) (d : database)
    : list mutation_row :=
  range offset (offset + limit - 1)
    (order_created_at_desc (List.filter (eq_user userId) (mutations d))).

(** The [forEach] that accumulates [totalDebits] and [totalCredits]. *)
Definition accumulate (acc : Z * Z) (mutation : mutation_row) : Z * Z :=
  let '(totalDebits, totalCredits) := acc in
  let changeAmount := m_balance mutation - m_prev_balance mutation in
  match m_type mutation with
  | debit => (totalDebits + Z.abs changeAmount, totalCredits)
  | credit => (totalDebits, totalCredits + Z.abs changeAmount)
  end.

Definition summarize (mutations : list mutation_row) : summary :=
  let '(totalDebits, totalCredits) := foldl accumulate (0, 0) mutations in
  {| total_debits := totalDebits; total_credits := totalCredits;
     net_change := totalCredits - totalDebits |}.

(** [GET /api/mut] for the authenticated [userId]. *)
Definition GET (userId : uuid) (limit offset : Z) (type : option mutation_type)
    (d : database) : response :=
  if negb (paginationQuerySchema limit offset) then
    createErrorResponse "Invalid query parameters" "VALIDATION_ERROR" 400
  else
    let totalCount := count_query userId type d in
    let mutations := page_query userId limit offset d in
    let s := summarize mutations in
    let hasMore := offset + limit <? totalCount in
    createSuccessResponse mutations
      {| limit := limit; offset := offset; total := totalCount;
         hasMore := hasMore |}
      s.

(** [GET_SUMMARY]: the summary alone, over all mutations of the user. *)
Definition GET_SUMMARY (userId : uuid) (d : database) : summary * Z :=
  let mutations := List.filter (eq_user userId) (mutations d) in
  (summarize mutations, Z.of_nat (length mutations)).

Definition summary_of (r : response) : option summary :=
  match r with
  | createSuccessResponse _ _ s => Some s
  | createErrorResponse _ _ _ => None
  end.

Definition mutations_of (r : response) : option (list mutation_row) :=
  match r with
  | createSuccessResponse ms _ _ => Some ms
  | createErrorResponse _ _ _ => None
  end.

Definition total_of (r : response) : option Z :=
  match r with
  | createSuccessResponse _ p _ => Some (total p)
  | createErrorResponse _ _ _ => None
  end.

(** The population a summary is asked to cover: all mutations of the
    account that match the optional type filter. *)
Definition matching (userId : uuid) (type : option mutation_type)
    (d : database) : list mutation_row :=
  List.filter
    (λ m, eq_user userId m &&
          match type with Some t => eq_type t m | None => true end)
    (mutations d).

End MutRoute.

(** ** A small ledger used by the examples *)
Module Sample.

Definition alice : uuid := "aaaaaaaa-aaaa-4aaa-8aaa-aaaaaaaaaaaa".
Definition bob : uuid := "bbbbbbbb-bbbb-4bbb-8bbb-bbbbbbbbbbbb".
Definition carol : uuid := "cccccccc-cccc-4ccc-8ccc-cccccccccccc".

Definition active : user_row := {| u_banned := Some false; u_verified := Some true |}.

(** alice holds 100.00, bob 50.00, carol has no balance row. *)
Definition ledger : database :=
  {| users := <[alice := active]> (<[bob := active]> (<[carol := active]> ∅));
     balances :=
       <[alice := {| b_amount := 10000; b_updated_at := 0 |}]>
         (<[bob := {| b_amount := 5000; b_updated_at := 0 |}]> ∅);
     transactions := [];
     mutations := [] |}.

Definition clock : env :=
  {| now_utc := 1738065600;
     to_char_now := "20250128_120000";
     orderid_uuid := "0f8fad5b-d9cb-469f-a165-70867728950e";
     transaction_uuid := "456e7890-e89b-42d3-a456-426614174001";
     debit_mutation_uuid := "789e0123-e89b-42d3-a456-426614174003";
     credit_mutation_uuid := "789e0123-e89b-42d3-a456-426614174004" |}.

Definition history_row (id user : uuid) (balance prev : numeric_15_2)
    (type : mutation_type) (at_ : timestamptz) : mutation_row :=
  {| m_id := id; m_user_id := user; m_balance := balance;
     m_prev_balance := prev; m_type := type; m_catatan := None;
     m_transaction_id := None; m_created_at := at_ |}.

(** alice was credited 100.00, then debited 30.00, then credited 50.00. *)
Definition history : database :=
  {| users := users ledger;
     balances := balances ledger;
     transactions := [];
     mutations :=
       [history_row "00000000-0000-4000-8000-000000000001" alice 10000 0 credit 1;
        history_row "00000000-0000-4000-8000-000000000002" alice 7000 10000 debit 2;
        history_row "00000000-0000-4000-8000-000000000003" alice 12000 7000 credit 3] |}.

(** alice pays carol, who has no balance row, 25.00. *)
Definition first_credit : json * pg_state :=
  handle_payment clock alice carol 25 None (Some "transfer") None None ledger.

(** alice pays bob 0.015: an amount with three fractional digits. *)
Definition fraction_of_cent : json * pg_state :=
  handle_payment clock alice bob (15 # 1000) (Some "ORDER_1")
    (Some "transfer") None None ledger.

(** alice pays bob 10.005. *)
Definition excess_precision : json * pg_state :=
  handle_payment clock alice bob (2001 # 200) (Some "ORDER_2")
    (Some "transfer") None None ledger.

(** alice pays bob 30.00. *)
Definition usual_payment : json * pg_state :=
  handle_payment clock alice bob 30 None (Some "transfer") None None ledger.

(** bob pays alice 30.00. *)
Definition reverse_payment : json * pg_state :=
  handle_payment clock bob alice 30 None (Some "transfer") None None ledger.

End Sample.

(** ** Outcomes of [handle_payment], as the block decides them *)

(** The balance rows among [ks] that exist, in the order of [ks]: the rows
    a sequence of [SELECT ... FOR UPDATE] over [ks] locks. *)
Definition rows_present (d : database) (ks : list uuid) : list uuid :=
  filter (λ k, is_Some (balances d !! k)) ks.

(** The early exits of the block, in the order the block tests them: each
    holds when all earlier tests passed and its own failed.  The last
    component tells whether the two FOR UPDATE reads were already done. *)
Inductive rejection (e : env) (sid rid : uuid) (a : numeric)
    (o : option string) (d : database) : string → string → bool → Prop :=
| reject_amount :
    Qle_bool a 0 = true →
    rejection e sid rid a o d "Amount must be greater than 0" "INVALID_AMOUNT" false
| reject_self :
    Qle_bool a 0 = false → (sid =? rid)%string = true →
    rejection e sid rid a o d "Cannot send to yourself" "SELF_TRANSFER" false
| reject_sender :
    Qle_bool a 0 = false → (sid =? rid)%string = false →
    active_user_exists sid d = false →
    rejection e sid rid a o d "Sender not found or banned" "SENDER_NOT_FOUND" false
| reject_receiver :
    Qle_bool a 0 = false → (sid =? rid)%string = false →
    active_user_exists sid d = true → active_user_exists rid d = false →
    rejection e sid rid a o d "Receiver not found or banned" "RECEIVER_NOT_FOUND" false
| reject_orderid :
    Qle_bool a 0 = false → (sid =? rid)%string = false →
    active_user_exists sid d = true → active_user_exists rid d = true →
    orderid_exists (final_orderid e o) d = true →
    rejection e sid rid a o d "Order ID already exists" "DUPLICATE_ORDERID" false
| reject_no_balance :
    Qle_bool a 0 = false → (sid =? rid)%string = false →
    active_user_exists sid d = true → active_user_exists rid d = true →
    orderid_exists (final_orderid e o) d = false →
    balances d !! sid = None →
    rejection e sid rid a o d "Sender balance not found" "SENDER_BALANCE_NOT_FOUND" true
| reject_funds sb :
    Qle_bool a 0 = false → (sid =? rid)%string = false →
    active_user_exists sid d = true → active_user_exists rid d = true →
    orderid_exists (final_orderid e o) d = false →
    balances d !! sid = Some sb →
    Qlt_bool (of_15_2 (b_amount sb)) a = true →
    rejection e sid rid a o d "Insufficient funds" "INSUFFICIENT_FUNDS" true.

(** The successful exit: every test passed, every write went through, and
    the answer and the new state are the ones built from the old state. *)
Definition applied (e : env) (sid rid : uuid) (a : numeric)
    (o b n c : option string) (s : pg_state) (j : json) (s' : pg_state) : Prop :=
  ∃ (sb : balance_row) (vr : numeric) (via : string)
    (cs cr ca cg md mdp mc mcp : numeric_15_2),
    Qle_bool a 0 = false ∧ (sid =? rid)%string = false ∧
    active_user_exists sid (db s) = true ∧
    active_user_exists rid (db s) = true ∧
    orderid_exists (final_orderid e o) (db s) = false ∧
    balances (db s) !! sid = Some sb ∧
    Qlt_bool (of_15_2 (b_amount sb)) a = false ∧
    to_15_2 (of_15_2 (b_amount sb) - a) = inr cs ∧
    match balances (db s) !! rid with
    | Some rb =>
        vr = of_15_2 (b_amount rb) ∧ to_15_2 (of_15_2 (b_amount rb) + a) = inr cr
    | None => vr = a ∧ to_15_2 a = inr cr
    end ∧
    to_15_2 a = inr ca ∧ to_15_2 a = inr cg ∧ 0 < ca ∧ b = Some via ∧
    to_15_2 (of_15_2 (b_amount sb) - a) = inr md ∧
    to_15_2 (of_15_2 (b_amount sb)) = inr mdp ∧
    to_15_2 (vr + a) = inr mc ∧
    to_15_2 (COALESCE (select_amount rid (db s)) 0%Q) = inr mcp ∧
    j = json_build_object
          [("success", JBool true);
           ("transaction_id", JText (transaction_uuid e));
           ("orderid", JText (final_orderid e o));
           ("amount", JNumber a);
           ("sender_new_balance", JNumber (of_15_2 (b_amount sb) - a));
           ("receiver_new_balance", JNumber (vr + a))] ∧
    db s' =
      {| users := users (db s);
         balances :=
           <[rid := {| b_amount := cr; b_updated_at := now_utc e |}]>
             (<[sid := {| b_amount := cs; b_updated_at := now_utc e |}]>
                (balances (db s)));
         transactions := transactions (db s) ++
           [{| t_id := transaction_uuid e; t_sender_id := sid;
               t_receiver_id := rid; t_amount := ca; t_paid := true;
               t_orderid := final_orderid e o; t_bayarvia := via;
               t_grandtotal := cg; t_namaproduk := n; t_catatan := c;
               t_created_at := now_utc e; t_updated_at := now_utc e |}];
         mutations := mutations (db s) ++
           [{| m_id := debit_mutation_uuid e; m_user_id := sid;
               m_balance := md; m_prev_balance := mdp; m_type := debit;
               m_catatan := Some (transaction_uuid e);
               m_transaction_id := Some (transaction_uuid e);
               m_created_at := now_utc e |};
            {| m_id := credit_mutation_uuid e; m_user_id := rid;
               m_balance := mc; m_prev_balance := mcp; m_type := credit;
               m_catatan := Some (transaction_uuid e);
               m_transaction_id := Some (transaction_uuid e);
               m_created_at := now_utc e |}] |} ∧
    row_locks s' = row_locks s ++ rows_present (db s) [sid; rid].

(** The lock order the deadlock-avoidance rule asks for: when a call locks
    two balance rows, the one whose identifier sorts lower is locked first. *)
Definition lower_sorted_first (locks : list uuid) : Prop :=
  ∀ k1 k2 rest, locks = k1 :: k2 :: rest → String.ltb k1 k2 = true.

(** ** Invariants of the ledger tables *)

(** No stored balance is negative. *)
Definition balances_nonneg (d : database) : Prop :=
  map_Forall (λ _ row, 0 <= b_amount row) (balances d).

(** The UNIQUE and PRIMARY KEY constraints on [transactions] and
    [mutations]. *)
Definition keys_unique (d : database) : Prop :=
  NoDup (t_orderid <$> transactions d) ∧
  NoDup (t_id <$> transactions d) ∧
  NoDup (m_id <$> mutations d).

(** What every transaction row written by [handle_payment] satisfies. *)
Definition transaction_well_formed (t : transaction_row) : Prop :=
  0 < t_amount t ∧ t_grandtotal t = t_amount t ∧
  t_sender_id t ≠ t_receiver_id t ∧ t_paid t = true.

(** ** Totals of a list of mutation rows *)



(** ** The transaction history route *)
Module TrxRoute.

Inductive direction : Type := sent | received.

(** A row of the answer: the selected columns and the derived
    [direction]. *)
Record enriched := {
  transaction : transaction_row;
  direction_of : direction
}.

Record pagination := {
  limit : Z;
  offset : Z;
  total : Z;
  hasMore : bool
}.

Inductive response : Type :=
| createErrorResponse (message code : string) (status : Z)
| createSuccessResponse (transactions : list enriched) (pagination : pagination).

(** [.or(`sender_id.eq.${userId},receiver_id.eq.${userId}`)] *)
Definition involves (userId : uuid) (t : transaction_row) : bool :=
  String.eqb (t_sender_id t) userId || String.eqb (t_receiver_id t) userId.

(** [.order('created_at', { ascending: false })]: newest first, rows of
    equal time in table order. *)
Fixpoint insert_by_created_at (t : transaction_row) (l : list transaction_row)
    : list transaction_row :=
  match l with
  | [] => [t]
  | x :: l' =>
      if t_created_at x <=? t_created_at t then t :: l
      else x :: insert_by_created_at t l'
  end.

Definition order_created_at_desc (l : list transaction_row)
    : list transaction_row :=
  foldr insert_by_created_at [] l.

(** [.range(from, to)]: rows [from] to [to], both included. *)
Definition range (from to : Z) (l : list transaction_row) : list transaction_row :=
  take (Z.to_nat (to - from + 1)) (drop (Z.to_nat from) l).

(** The count query, [{ count: 'exact', head: true }]. *)
Definition count_query (userId : uuid) (d : database) : Z :=
  Z.of_nat (length (List.filter (involves userId) (transactions d))).

Definition page_query (userId : uuid) (limit offset : Z) (d : database)
    : list transaction_row :=
  range offset (offset + limit - 1)
    (order_created_at_desc (List.filter (involves userId) (transactions d))).

(** [direction: transaction.sender_id === userId ? 'sent' : 'received'] *)
Definition enrich (userId : uuid) (t : transaction_row) : enriched :=
  {| transaction := t;
     direction_of := if String.eqb (t_sender_id t) userId then sent else received |}.

(** [GET /api/trx] for the authenticated [userId]. *)
Definition GET (userId : uuid) (limit offset : Z) (d : database) : response :=
  if negb (MutRoute.paginationQuerySchema limit offset) then
    createErrorResponse "Invalid query parameters" "VALIDATION_ERROR" 400
  else
    let totalCount := count_query userId d in
    let transactions := page_query userId limit offset d in
    let enrichedTransactions := enrich userId <$> transactions in
    let hasMore := offset + limit <? totalCount in
    createSuccessResponse enrichedTransactions
      {| limit := limit; offset := offset; total := totalCount;
         hasMore := hasMore |}.

Definition transactions_of (r : response) : option (list enriched) :=
  match r with
  | createSuccessResponse ts _ => Some ts
  | createErrorResponse _ _ _ => None
  end.

Definition total_of (r : response) : option Z :=
  match r with
  | createSuccessResponse _ p => Some (total p)
  | createErrorResponse _ _ _ => None
  end.

End TrxRoute.

(** ** API keys and the authentication middleware *)
Module Auth.

(** [api_keys], keyed by its primary key [key]: the columns
    [validate_api_key] reads. *)
Record api_key_row := {
  k_user_id : uuid;
  k_is_active : option bool
}.

(** SQL's three-valued [=] on a nullable boolean and [AND]. *)
Definition sql_is (o : option bool) (b : bool) : option bool :=
  (λ x, Bool.eqb x b) <$> o.

Definition sql_and (a b : option bool) : option bool :=
  match a, b with
  | Some false, _ | _, Some false => Some false
  | Some true, Some true => Some true
  | _, _ => None
  end.

(** The SQL function [validate_api_key]: the rows [(user_id, is_valid)] of
    the join of [api_keys] and [users] that pass the WHERE clause. *)
Definition validate_api_key (api_keys : gmap string api_key_row) (d : database)
    (api_key_param : string) : list (uuid * option bool) :=
  match api_keys !! api_key_param with
  | Some ak =>
      match users d !! k_user_id ak with
      | Some u =>
          let is_valid :=
            sql_and (sql_and (sql_is (k_is_active ak) true)
                             (sql_is (u_banned u) false))
                    (sql_is (u_verified u) true) in
          if bool_decide (is_valid = Some true)
          then [(k_user_id ak, is_valid)] else []
      | None => []
      end
  | None => []
  end.

Record ApiContext := {
  userId : option string;
  apiKey : option string
}.

(** JavaScript truthiness of a string and of a nullable boolean. *)
Definition truthy_string (s : string) : bool := negb (String.eqb s "").
Definition truthy_bool (o : option bool) : bool := default false o.

(** [validateApiKey] of the middleware library. *)
Definition validateApiKey (api_keys : gmap string api_key_row) (d : database)
    (apiKey : string) : option ApiContext :=
  if negb (truthy_string apiKey) then None
  else
    match validate_api_key api_keys d apiKey with
    | (user_id, is_valid) :: _ =>
        if truthy_bool is_valid && truthy_string user_id
        then Some {| userId := Some user_id; apiKey := Some apiKey |}
        else None
    | [] => None
    end.

(** A request: its path and its headers, keyed by lower-case name. *)
Record request := {
  pathname : string;
  headers : gmap string string
}.

(** The JSON body and status of a refusal. *)
Record refusal := {
  r_error : string;
  r_code : string;
  r_message : string;
  r_status : Z
}.

(** [apiKeyMiddleware]: [None] lets the request continue. *)
Definition apiKeyMiddleware (api_keys : gmap string api_key_row) (d : database)
    (request : request) : option refusal :=
  if negb (String.prefix "/api/" (pathname request))
     || String.prefix "/api/webhooks" (pathname request)
  then None
  else
    match headers request !! "x-api-key" with
    | Some apiKey =>
        if negb (truthy_string apiKey) then
          Some {| r_error := "Missing API key"; r_code := "MISSING_API_KEY";
                  r_message := "API key is required for this endpoint";
                  r_status := 401 |}
        else
          match validateApiKey api_keys d apiKey with
          | None =>
              Some {| r_error := "Invalid API key"; r_code := "INVALID_API_KEY";
                      r_message :=
                        "The provided API key is invalid or has been revoked";
                      r_status := 401 |}
          | Some context =>
              (* the copy of the headers carrying x-user-id and
                 x-api-key-validated is built and dropped *)
              None
          end
    | None =>
        Some {| r_error := "Missing API key"; r_code := "MISSING_API_KEY";
                r_message := "API key is required for this endpoint";
                r_status := 401 |}
    end.

(** The root middleware: the refusal of [apiKeyMiddleware], or
    [NextResponse.next()], which hands the request on as it came. *)
Inductive middleware_result : Type :=
| respond (r : refusal)
| next (forwarded : request).

Definition middleware (api_keys : gmap string api_key_row) (d : database)
    (request : request) : middleware_result :=
  match apiKeyMiddleware api_keys d request with
  | Some apiAuthResult => respond apiAuthResult
  | None => next request
  end.

(** [getUserContext] *)
Definition getUserContext (request : request) : option ApiContext :=
  match headers request !! "x-user-id",
        headers request !! "x-api-key-validated" with
  | Some userId, Some "true" =>
      if truthy_string userId then
        Some {| userId := Some userId;
                apiKey :=
                  match headers request !! "x-api-key" with
                  | Some k => if truthy_string k then Some k else None
                  | None => None
                  end |}
      else None
  | _, _ => None
  end.

(** [requireAuth] and [getUserId]: the thrown [Error] is its message. *)
Definition requireAuth (request : request) : string + ApiContext :=
  match getUserContext request with
  | Some context =>
      match userId context with
      | Some u => if truthy_string u then inr context
                  else inl "Unauthorized: Missing or invalid authentication"
      | None => inl "Unauthorized: Missing or invalid authentication"
      end
  | None => inl "Unauthorized: Missing or invalid authentication"
  end.

Definition getUserId (request : request) : string + string :=
  match requireAuth request with
  | inr context => inr (default "" (userId context))
  | inl e => inl e
  end.

End Auth.

Module AuthSample.

(** alice holds one active key. *)
Definition api_keys : gmap string Auth.api_key_row :=
  {[ "key-of-alice" :=
       {| Auth.k_user_id := Sample.alice; Auth.k_is_active := Some true |} ]}.

(** A request with alice's key and nothing else. *)
Definition honest : Auth.request :=
  {| Auth.pathname := "/api/balance";
     Auth.headers := {[ "x-api-key" := "key-of-alice" ]} |}.

(** A request with alice's key that names bob in the headers the handlers
    read. *)
Definition spoofed : Auth.request :=
  {| Auth.pathname := "/api/balance";
     Auth.headers :=
       <["x-api-key" := "key-of-alice"]>
         (<["x-user-id" := Sample.bob]>
            (<["x-api-key-validated" := "true"]> ∅)) |}.

End AuthSample.

(** ** The route wrapper and the error factory *)
Module Api.

(** [ApiError]: the fields the response is built from. *)
Record ApiError := {
  message : string;
  code : string;
  statusCode : Z
}.

(** [message || fallback] *)
Definition or_default (message : option string) (fallback : string) : string :=
  match message with
  | Some m => if Auth.truthy_string m then m else fallback
  | None => fallback
  end.

Module ErrorFactory.

Definition unauthorized (message : option string) : ApiError :=
  {| message := or_default message "Authentication required";
     code := "UNAUTHORIZED"; statusCode := 401 |}.

Definition forbidden (message : option string) : ApiError :=
  {| message := or_default message "Access forbidden";
     code := "FORBIDDEN"; statusCode := 403 |}.

Definition notFound (resource : option string) : ApiError :=
  {| message := or_default resource "Resource" +:+ " not found";
     code := "NOT_FOUND"; statusCode := 404 |}.

Definition validationError (message : option string) : ApiError :=
  {| message := or_default message "Validation failed";
     code := "VALIDATION_ERROR"; statusCode := 400 |}.

Definition insufficientFunds : ApiError :=
  {| message := "Insufficient funds";
     code := "INSUFFICIENT_FUNDS"; statusCode := 402 |}.

Definition databaseError (message : option string) : ApiError :=
  {| message := or_default message "Database operation failed";
     code := "DATABASE_ERROR"; statusCode := 500 |}.

Definition paymentError (message : option string) : ApiError :=
  {| message := or_default message "Payment processing failed";
     code := "PAYMENT_ERROR"; statusCode := 500 |}.

End ErrorFactory.

(** A [Response] object: the one [createErrorResponse] builds from an
    [ApiError], or [Response.json(body)]. *)
Inductive Response (T : Type) : Type :=
| createErrorResponse (error : ApiError)
| Response_json (body : T).
Arguments createErrorResponse {T} error.
Arguments Response_json {T} body.

(** What a handler hands back under the type [Response | NextResponse]: a
    [Response] object, or a plain object such as [{ success, data }], which
    has no [headers] member. *)
Inductive handed_back (T : Type) : Type :=
| a_Response (r : Response T)
| an_object (value : T).
Arguments a_Response {T} r.
Arguments an_object {T} value.

(** How a call of an async function ends. *)
Inductive completion (A : Type) : Type :=
| resolves (a : A)
| rejects_TypeError.
Arguments resolves {A} a.
Arguments rejects_TypeError {A}.

(** The context a handler receives; [supabase] is the database the handler
    is run against. *)
Record ApiContext := {
  request : Auth.request;
  userId : option string
}.

(** A handler: it throws an [ApiError] or hands a value back, and leaves a
    database. *)
Definition ApiHandlerFunction (T : Type) : Type :=
  ApiContext → database → (ApiError + handed_back T) * database.

(** The function [createApiHandler] passes to [withRequestLogger]: the
    authentication gate, the handler, and the [catch] that turns a thrown
    error into its response.  The handler is taken to finish before the
    timeout. *)
Definition guarded {T} (requireAuth validateUser : bool)
    (handler : ApiHandlerFunction T) (request : Auth.request) (d : database)
    : handed_back T * database :=
  let run (context : ApiContext) :=
    match handler context d with
    | (inl error, d') => (a_Response (createErrorResponse error), d')
    | (inr result, d') => (result, d')
    end in
  let throw (error : ApiError) :=
    (a_Response (createErrorResponse error), d) in
  if requireAuth then
    let userId := Auth.headers request !! "x-user-id" in
    let apiKeyValidated := Auth.headers request !! "x-api-key-validated" in
    match userId with
    | Some id =>
        if negb (bool_decide (apiKeyValidated = Some "true"))
           || negb (Auth.truthy_string id)
        then throw (ErrorFactory.unauthorized (Some "Authentication required"))
        else
          let context := {| request := request; userId := Some id |} in
          if validateUser then
            match users d !! id with
            | None => throw (ErrorFactory.notFound (Some "User account"))
            | Some user =>
                if Auth.truthy_bool (u_banned user) then
                  throw (ErrorFactory.forbidden (Some "Account is suspended"))
                else if negb (Auth.truthy_bool (u_verified user)) then
                  throw (ErrorFactory.forbidden (Some "Account is not verified"))
                else run context
            end
          else run context
    | None => throw (ErrorFactory.unauthorized (Some "Authentication required"))
    end
  else run {| request := request; userId := None |}.

(** [logSuccessResponse] evaluates [response?.headers.get('content-type')]:
    on a plain object [headers] is undefined and the call of [get] throws. *)
Definition logSuccessResponse {T} (response : handed_back T) : completion unit :=
  match response with
  | a_Response _ => resolves ()
  | an_object _ => rejects_TypeError
  end.

(** [withRequestLogger]: the error is logged and thrown again. *)
Definition withRequestLogger {T}
    (handler : Auth.request → database → handed_back T * database)
    (request : Auth.request) (d : database)
    : completion (handed_back T) * database :=
  let '(response, d') := handler request d in
  match logSuccessResponse response with
  | resolves _ => (resolves response, d')
  | rejects_TypeError => (rejects_TypeError, d')
  end.

Definition createApiHandler {T} (requireAuth validateUser : bool)
    (handler : ApiHandlerFunction T)
    : Auth.request → database → completion (handed_back T) * database :=
  withRequestLogger (guarded requireAuth validateUser handler).

(** The request body as [withValidation] sees it. *)
Inductive parse_result (B : Type) : Type :=
| invalid_json
| schema_failure
| parsed (body : B).
Arguments invalid_json {B}.
Arguments schema_failure {B}.
Arguments parsed {B} body.

Definition withValidation {B T} (safeParse : parse_result B)
    (handler : ApiContext → B → database → (ApiError + handed_back T) * database)
    : ApiHandlerFunction T :=
  λ context d,
    match safeParse with
    | parsed body => handler context body d
    | schema_failure =>
        (inl (ErrorFactory.validationError (Some "Request body validation failed")), d)
    | invalid_json =>
        (inl (ErrorFactory.validationError (Some "Invalid JSON in request body")), d)
    end.

(** The checks of a health handler: each returns a boolean or throws. *)
Inductive check_outcome : Type :=
| returned (passed : bool)
| threw (message : string).

Inductive check_status : Type := pass | fail | error.

Record health := {
  status : string;
  checks : list (string * check_status)
}.

(** The loop of [createHealthCheckHandler] over [Object.entries(checks)]. *)
Definition run_check (results : health) (entry : string * check_outcome) : health :=
  let '(name, outcome) := entry in
  match outcome with
  | returned passed =>
      {| status := if passed then status results else "unhealthy";
         checks := checks results ++ [(name, if passed then pass else fail)] |}
  | threw _ =>
      {| status := "unhealthy";
         checks := checks results ++ [(name, error)] |}
  end.

Definition createHealthCheckHandler (checks : list (string * check_outcome))
    : health :=
  foldl run_check {| status := "healthy"; checks := [] |} checks.

End Api.

(** ** [POST /api/pay] *)
Module PayRoute.

Record body := {
  recipientId : string;
  amount : numeric;
  orderid : option string;
  bayarvia : option string;
  namaproduk : option string;
  catatan : option string
}.

(** The [data] of the success object: members of the function's answer. *)
Record data := {
  transactionId : option json_value;
  data_orderid : option json_value;
  data_amount : option json_value;
  senderNewBalance : option json_value;
  receiverNewBalance : option json_value
}.

(** JavaScript truthiness of a member of a JSON object. *)
Definition truthy (v : option json_value) : bool :=
  match v with
  | Some (JBool b) => b
  | Some (JText s) => Auth.truthy_string s
  | Some (JNumber q) => negb (Qeq_bool q 0)
  | Some JNull | None => false
  end.

Definition text_of (v : option json_value) : option string :=
  match v with Some (JText s) => Some s | _ => None end.

(** [v === s] for a member of a JSON object and a string. *)
Definition is_text (v : option json_value) (s : string) : bool :=
  match v with Some (JText t) => String.eqb t s | _ => false end.

(** The [switch (result.code)] of the handler. *)
Definition error_of (result : json) : Api.ApiError :=
  let code := json_get "code" result in
  if is_text code "INVALID_AMOUNT" then
    Api.ErrorFactory.validationError (Some "Invalid payment amount")
  else if is_text code "SELF_TRANSFER" then
    Api.ErrorFactory.validationError (Some "Cannot send payment to yourself")
  else if is_text code "SENDER_NOT_FOUND" then
    Api.ErrorFactory.notFound (Some "Sender account not found or is banned")
  else if is_text code "RECEIVER_NOT_FOUND" then
    Api.ErrorFactory.notFound (Some "Recipient account not found or is banned")
  else if is_text code "SENDER_BALANCE_NOT_FOUND" then
    Api.ErrorFactory.notFound (Some "Sender balance not found")
  else if is_text code "INSUFFICIENT_FUNDS" then
    Api.ErrorFactory.insufficientFunds
  else if is_text code "DUPLICATE_ORDERID" then
    Api.ErrorFactory.validationError (Some "Order ID already exists")
  else
    Api.ErrorFactory.paymentError
      (Some (Api.or_default (text_of (json_get "error" result))
               "Payment processing failed")).

(** The handler given to [withValidation]. *)
Definition handler (e : env) (context : Api.ApiContext) (body : body)
    (d : database) : (Api.ApiError + Api.handed_back data) * database :=
  let senderId := default "" (Api.userId context) in
  if String.eqb senderId (recipientId body) then
    (inl (Api.ErrorFactory.validationError
            (Some "Cannot send payment to yourself")), d)
  else
    match users d !! recipientId body with
    | None =>
        (inl (Api.ErrorFactory.notFound
                (Some "Recipient account not found or is inactive")), d)
    | Some recipient =>
        if Auth.truthy_bool (u_banned recipient) then
          (inl (Api.ErrorFactory.forbidden
                  (Some "Recipient account is suspended")), d)
        else
          let '(result, s) :=
            handle_payment e senderId (recipientId body) (amount body)
              (orderid body) (Some (default "transfer" (bayarvia body)))
              (namaproduk body) (catatan body) d in
          if negb (truthy (json_get "success" result)) then
            (inl (error_of result), db s)
          else
            (inr (Api.an_object
                    {| transactionId := json_get "transaction_id" result;
                       data_orderid := json_get "orderid" result;
                       data_amount := json_get "amount" result;
                       senderNewBalance := json_get "sender_new_balance" result;
                       receiverNewBalance :=
                         json_get "receiver_new_balance" result |}),
             db s)
    end.

Definition POST (e : env) (safeParse : Api.parse_result body)
    : Auth.request → database
      → Api.completion (Api.handed_back data) * database :=
  Api.createApiHandler true true (Api.withValidation safeParse (handler e)).

End PayRoute.

(** ** [/api/balance] *)
Module BalanceRoute.

(** [balance || 0] *)
Definition or_zero (balance : numeric) : numeric :=
  if Qeq_bool balance 0 then 0%Q else balance.

(** The handler of [GET]: the [balance] of the success object. *)
Definition GET_handler : Api.ApiHandlerFunction numeric :=
  λ context d,
    let balance := get_user_balance (default "" (Api.userId context)) d in
    (inr (Api.an_object (or_zero balance)), d).

(** The handler of [POST], given to [withValidation]: the stored amount of
    the success object. *)
Definition POST_handler (e : env) (context : Api.ApiContext) (amount : numeric)
    (d : database) : (Api.ApiError + Api.handed_back numeric) * database :=
  let userId := default "" (Api.userId context) in
  let start := {| db := d; row_locks := [] |} in
  match select_amount userId d with
  | None =>
      match insert_balance e userId amount start with
      | Next _ s =>
          match select_amount userId (db s) with
          | Some stored => (inr (Api.an_object stored), db s)
          | None =>
              (inl (Api.ErrorFactory.databaseError
                      (Some "Failed to create balance")), db s)
          end
      | _ =>
          (inl (Api.ErrorFactory.databaseError
                  (Some "Failed to create balance")), d)
      end
  | Some existingBalance =>
      match update_balance e userId (λ _, amount) start with
      | Next _ s =>
          match select_amount userId (db s) with
          | Some stored => (inr (Api.an_object stored), db s)
          | None =>
              (inl (Api.ErrorFactory.databaseError
                      (Some "Failed to update balance")), db s)
          end
      | _ =>
          (inl (Api.ErrorFactory.databaseError
                  (Some "Failed to update balance")), d)
      end
  end.

Definition GET : Auth.request → database
    → Api.completion (Api.handed_back numeric) * database :=
  Api.createApiHandler true true GET_handler.

Definition POST (e : env) (safeParse : Api.parse_result numeric)
    : Auth.request → database
      → Api.completion (Api.handed_back numeric) * database :=
  Api.createApiHandler true true (Api.withValidation safeParse (POST_handler e)).

End BalanceRoute.

(** ** The history routes as they are called *)
Module History.

(** [haystack.includes(needle)] *)
Fixpoint includes (needle haystack : string) : bool :=
  String.prefix needle haystack ||
  match haystack with
  | EmptyString => false
  | String _ rest => includes needle rest
  end.

(** The [catch] block of the two routes, on a thrown [Error]. *)
Definition catch {R} (createErrorResponse : string → string → Z → R)
    (message : string) : R :=
  if includes "Unauthorized" message then
    createErrorResponse "Authentication required" "UNAUTHORIZED" 401
  else createErrorResponse "Internal server error" "INTERNAL_ERROR" 500.

(** [GET /api/mut] on a request whose query gave [limit], [offset] and
    [type]. *)
Definition mut_GET (request : Auth.request) (limit offset : Z)
    (type : option mutation_type) (d : database) : MutRoute.response :=
  match Auth.getUserId request with
  | inr userId => MutRoute.GET userId limit offset type d
  | inl message => catch MutRoute.createErrorResponse message
  end.

(** [GET /api/trx] *)
Definition trx_GET (request : Auth.request) (limit offset : Z) (d : database)
    : TrxRoute.response :=
  match Auth.getUserId request with
  | inr userId => TrxRoute.GET userId limit offset d
  | inl message => catch TrxRoute.createErrorResponse message
  end.

End History.

(** ** The metrics collector *)
Module PerformanceMetrics.

(** One entry of the map; [minDuration] is [None] for [Infinity].  Counts
    and durations are whole numbers of requests and milliseconds. *)
Record entry := {
  count : Z;
  totalDuration : Z;
  minDuration : option Z;
  maxDuration : Z;
  errorCount : Z
}.

Abbreviation metrics := (gmap string entry) (only parsing).

Definition Math_min (a : option Z) (b : Z) : option Z :=
  match a with Some x => Some (Z.min x b) | None => Some b end.

Definition recordRequest (endpoint : string) (duration : Z) (success : bool)
    (m : metrics) : metrics :=
  let existing :=
    default {| count := 0; totalDuration := 0; minDuration := None;
               maxDuration := 0; errorCount := 0 |} (m !! endpoint) in
  let updated :=
    {| count := count existing + 1;
       totalDuration := totalDuration existing + duration;
       minDuration := Math_min (minDuration existing) duration;
       maxDuration := Z.max (maxDuration existing) duration;
       errorCount := errorCount existing + (if success then 0 else 1) |} in
  <[endpoint := updated]> m.

Definition resetMetrics (m : metrics) : metrics := ∅.

(** A recorded request: endpoint, duration, success. *)
Definition event : Type := string * Z * bool.

Definition record (m : metrics) (ev : event) : metrics :=
  let '(endpoint, duration, success) := ev in
  recordRequest endpoint duration success m.

(** The requests recorded since the last [resetMetrics]. *)
Definition recorded (events : list event) : metrics :=
  foldl record (resetMetrics ∅) events.

Definition at_endpoint (endpoint : string) (events : list event)
    : list (Z * bool) :=
  (λ ev : event, (ev.1.2, ev.2)) <$>
    List.filter (λ ev : event, String.eqb ev.1.1 endpoint) events.

(** The sums of [GET /api/metrics] over [Object.entries(metrics)]. *)
Record totals := {
  totalRequests : Z;
  totalErrors : Z;
  sumDuration : Z
}.

Definition add_entry (endpoint : string) (data : entry) (acc : totals) : totals :=
  {| totalRequests := totalRequests acc + count data;
     totalErrors := totalErrors acc + errorCount data;
     sumDuration := sumDuration acc + totalDuration data |}.

Definition system_totals (m : metrics) : totals :=
  map_fold add_entry
    {| totalRequests := 0; totalErrors := 0; sumDuration := 0 |} m.

End PerformanceMetrics.

Module RouteSample.

(** A request whose headers name [sender] as the validated caller. *)
Definition from (sender : string) : Auth.request :=
  {| Auth.pathname := "/api/pay";
     Auth.headers :=
       <["x-user-id" := sender]> (<["x-api-key-validated" := "true"]> ∅) |}.

(** A body that asks to pay [amount] to [recipient]. *)
Definition pay (recipient : string) (amount : numeric) : PayRoute.body :=
  {| PayRoute.recipientId := recipient; PayRoute.amount := amount;
     PayRoute.orderid := None; PayRoute.bayarvia := None;
     PayRoute.namaproduk := None; PayRoute.catatan := None |}.

End RouteSample.

(** * Reasoning about blocks *)

Section Blocks.
Context {A B : Type}.
Implicit Types (m : plpgsql A) (f : A → plpgsql B) (s : pg_state).

Lemma bind_run m f s :
  (m ≫= f) s =
    match m s with
    | Raise e => Raise e
    | Return j s' => Return j s'
    | Next a s' => f a s'
    end.
Proof. reflexivity. Qed.

(** A sequence executed RETURN: its first statement did, or the first
    statement fell through and the rest did. *)
Lemma bind_Return m f s j s' :
  (m ≫= f) s = Return j s' →
  m s = Return j s' ∨ ∃ a s1, m s = Next a s1 ∧ f a s1 = Return j s'.
Proof. rewrite bind_run. destruct (m s); naive_solver. Qed.

Lemma bind_Next m f s b s' :
  (m ≫= f) s = Next b s' → ∃ a s1, m s = Next a s1 ∧ f a s1 = Next b s'.
Proof. rewrite bind_run. destruct (m s); naive_solver. Qed.
End Blocks.

Lemma IF_RETURN_Return c j s j' s' :
  IF_RETURN c j s = Return j' s' → c = true ∧ j' = j ∧ s' = s.
Proof. unfold IF_RETURN. destruct c; naive_solver. Qed.

Lemma IF_RETURN_Next c j s u s' :
  IF_RETURN c j s = Next u s' → c = false ∧ s' = s.
Proof. unfold IF_RETURN. destruct c; naive_solver. Qed.

Lemma query_Next {A} (f : database → A) s a s' :
  query f s = Next a s' → a = f (db s) ∧ s' = s.
Proof. unfold query. naive_solver. Qed.

Lemma guard_sql_Next ok e s u s' :
  guard_sql ok e s = Next u s' → ok = true ∧ s' = s.
Proof. unfold guard_sql. destruct ok; naive_solver. Qed.

Lemma cast_15_2_Next q s c s' :
  cast_15_2 q s = Next c s' → to_15_2 q = inr c ∧ s' = s.
Proof. unfold cast_15_2. destruct (to_15_2 q); naive_solver. Qed.

Lemma not_null_Next {A} col (o : option A) s a s' :
  not_null col o s = Next a s' → o = Some a ∧ s' = s.
Proof. unfold not_null. destruct o; naive_solver. Qed.

(** Inversion of a fall-through of a sequence of primitive statements. *)
Ltac invert_next H :=
  repeat match type of H with
  | (_ ≫= _) _ = Next _ _ =>
      let H1 := fresh "Hstep" in
      apply bind_Next in H as (? & ? & H1 & H);
      first [ apply query_Next in H1 as [-> ->]
            | apply guard_sql_Next in H1 as [?%negb_true_iff ->]
            | apply guard_sql_Next in H1 as [? ->]
            | apply cast_15_2_Next in H1 as [? ->]
            | apply not_null_Next in H1 as [? ->] ]
  end.

(** The statements of the migration never execute RETURN. *)
Lemma no_return_bind {A B} (m : plpgsql A) (f : A → plpgsql B) :
  no_return m → (∀ a, no_return (f a)) → no_return (m ≫= f).
Proof.
  intros Hm Hf s j s' [H | (a & s1 & _ & H)]%bind_Return.
  - by eapply Hm.
  - by eapply Hf.
Qed.

Lemma no_return_query {A} (f : database → A) : no_return (query f).
Proof. by intros s j s'. Qed.
Lemma no_return_modify f : no_return (modify f).
Proof. by intros s j s'. Qed.
Lemma no_return_lock_row k : no_return (lock_row k).
Proof. by intros s j s'. Qed.
Lemma no_return_mret {A} (a : A) : no_return (mret a).
Proof. by intros s j s'. Qed.
Lemma no_return_guard_sql ok e : no_return (guard_sql ok e).
Proof. intros s j s'. unfold guard_sql. by destruct ok. Qed.
Lemma no_return_cast_15_2 q : no_return (cast_15_2 q).
Proof. intros s j s'. unfold cast_15_2. by destruct (to_15_2 q). Qed.
Lemma no_return_not_null {A} col (o : option A) : no_return (not_null col o).
Proof. intros s j s'. unfold not_null. by destruct o. Qed.

Create HintDb no_return discriminated.
#[export] Hint Resolve no_return_query no_return_modify no_return_lock_row
  no_return_mret no_return_guard_sql no_return_cast_15_2 no_return_not_null
  : no_return.
#[export] Hint Extern 1 (no_return (_ ≫= _)) =>
  apply no_return_bind; [| intros ?] : no_return.
#[export] Hint Extern 1 (no_return (match ?o with _ => _ end)) =>
  destruct o : no_return.

Lemma no_return_select_amount_for_update k : no_return (select_amount_for_update k).
Proof. unfold select_amount_for_update. auto 10 with no_return. Qed.
Lemma no_return_update_balance e k f : no_return (update_balance e k f).
Proof. unfold update_balance. auto 10 with no_return. Qed.
Lemma no_return_insert_balance e k a : no_return (insert_balance e k a).
Proof. unfold insert_balance. auto 20 with no_return. Qed.
Lemma no_return_insert_transaction e s r a p o b g n c :
  no_return (insert_transaction e s r a p o b g n c).
Proof. unfold insert_transaction. auto 40 with no_return. Qed.
Lemma no_return_insert_mutation e i u b pb t c tid :
  no_return (insert_mutation e i u b pb t c tid).
Proof. unfold insert_mutation. auto 30 with no_return. Qed.

(** ** What each statement does when it completes *)

Lemma select_amount_for_update_run k s :
  select_amount_for_update k s =
    match balances (db s) !! k with
    | Some r => Next (Some (of_15_2 (b_amount r)))
                  {| db := db s; row_locks := row_locks s ++ [k] |}
    | None => Next None s
    end.
Proof.
  unfold select_amount_for_update. rewrite bind_run. cbn.
  by destruct (balances (db s) !! k).
Qed.

Lemma update_balance_Next e k f s u s' :
  update_balance e k f s = Next u s' →
  match balances (db s) !! k with
  | Some r => ∃ c, to_15_2 (f (of_15_2 (b_amount r))) = inr c ∧
      s' = {| db := set_balances
                      <[k := {| b_amount := c; b_updated_at := now_utc e |}]> (db s);
              row_locks := row_locks s |}
  | None => s' = s
  end.
Proof.
  unfold update_balance. rewrite bind_run. cbn.
  destruct (balances (db s) !! k) as [r|];
    [|unfold mret, plpgsql_ret; congruence].
  intros H. invert_next H. unfold modify in H. naive_solver.
Qed.

Lemma insert_balance_Next e k a s u s' :
  insert_balance e k a s = Next u s' →
  ∃ c, to_15_2 a = inr c ∧ balances (db s) !! k = None ∧
    s' = {| db := set_balances
                    <[k := {| b_amount := c; b_updated_at := now_utc e |}]> (db s);
            row_locks := row_locks s |}.
Proof.
  unfold insert_balance. intros H. invert_next H. unfold modify in H.
  eexists. split; [done|]. split; [|naive_solver].
  match goal with H : bool_decide _ = false |- _ => apply bool_decide_eq_false in H end.
  by apply eq_None_not_Some.
Qed.

Lemma insert_transaction_Next e sender receiver amount paid orderid bayarvia
    grandtotal namaproduk catatan s id s' :
  insert_transaction e sender receiver amount paid orderid bayarvia
    grandtotal namaproduk catatan s = Next id s' →
  id = transaction_uuid e ∧
  ∃ a g via, to_15_2 amount = inr a ∧ to_15_2 grandtotal = inr g ∧
    bayarvia = Some via ∧ 0 < a ∧
    transaction_id_exists (transaction_uuid e) (db s) = false ∧
    s' = {| db := add_transaction
              {| t_id := transaction_uuid e; t_sender_id := sender;
                 t_receiver_id := receiver; t_amount := a; t_paid := paid;
                 t_orderid := orderid; t_bayarvia := via; t_grandtotal := g;
                 t_namaproduk := namaproduk; t_catatan := catatan;
                 t_created_at := now_utc e; t_updated_at := now_utc e |} (db s);
            row_locks := row_locks s |}.
Proof.
  unfold insert_transaction. intros H. invert_next H.
  unfold mbind, plpgsql_bind, modify, mret, plpgsql_ret in H.
  injection H as <- <-.
  split; [done|]. do 3 eexists. repeat split; try done. lia.
Qed.

Lemma insert_mutation_Next e id user balance prev_balance type catatan
    transaction_id s u s' :
  insert_mutation e id user balance prev_balance type catatan transaction_id s
    = Next u s' →
  ∃ b pb, to_15_2 balance = inr b ∧ to_15_2 prev_balance = inr pb ∧
    mutation_id_exists id (db s) = false ∧
    s' = {| db := add_mutation
              {| m_id := id; m_user_id := user; m_balance := b;
                 m_prev_balance := pb; m_type := type;
                 m_catatan := Some catatan;
                 m_transaction_id := Some transaction_id;
                 m_created_at := now_utc e |} (db s);
            row_locks := row_locks s |}.
Proof.
  unfold insert_mutation. intros H. invert_next H. unfold modify in H.
  injection H as <-. do 2 eexists. repeat split; done.
Qed.

(** ** The block, case by case *)

Lemma rows_present_two d k1 k2 :
  rows_present d [k1; k2] =
    match balances d !! k1 with Some _ => [k1] | None => [] end ++
    match balances d !! k2 with Some _ => [k2] | None => [] end.
Proof.
  unfold rows_present. rewrite !filter_cons, filter_nil.
  destruct (balances d !! k1), (balances d !! k2);
    repeat case_decide; try done;
    repeat match goal with
    | H : ¬ is_Some (Some _) |- _ => by destruct H
    | H : is_Some None |- _ => by destruct H
    end.
Qed.

(** An IF ... THEN RETURN that fired: the call is rejected with its code. *)
Ltac early_exit H :=
  apply IF_RETURN_Return in H as (H & -> & ->);
  rewrite ?negb_true_iff in H;
  left; eexists _, _, _; split; [by econstructor|];
  cbn [db row_locks]; rewrite ?app_nil_r; repeat split; try done.

(** One statement of the test phase: it returned early, or it fell through
    and its condition is recorded. *)
Ltac step_return H :=
  let Hs := fresh "Hstep" in
  apply bind_Return in H as [H | (? & ? & Hs & H)];
  [ first [ early_exit H | by unfold query in H ]
  | first [ apply IF_RETURN_Next in Hs as [Hs ->]; rewrite ?negb_false_iff in Hs
          | apply query_Next in Hs as [-> ->] ] ].

(** The three inserts and the final RETURN. *)
Lemma ledger_entries_Return e sid rid a o b n c (vs vr vrp : numeric) s j s' :
  (v_transaction_id ←
     insert_transaction e sid rid a true (final_orderid e o) b a n c;
   insert_mutation e (debit_mutation_uuid e) sid (vs - a)%Q vs debit
     v_transaction_id v_transaction_id ;;
   insert_mutation e (credit_mutation_uuid e) rid (vr + a)%Q vrp credit
     v_transaction_id v_transaction_id ;;
   RETURN (A:=Empty_set) (json_build_object
     [("success", JBool true);
      ("transaction_id", JText v_transaction_id);
      ("orderid", JText (final_orderid e o));
      ("amount", JNumber a);
      ("sender_new_balance", JNumber (vs - a)%Q);
      ("receiver_new_balance", JNumber (vr + a)%Q)])) s = Return j s' →
  ∃ via ca cg md mdp mc mcp,
    to_15_2 a = inr ca ∧ to_15_2 a = inr cg ∧ 0 < ca ∧ b = Some via ∧
    to_15_2 (vs - a) = inr md ∧ to_15_2 vs = inr mdp ∧
    to_15_2 (vr + a) = inr mc ∧ to_15_2 vrp = inr mcp ∧
    j = json_build_object
          [("success", JBool true);
           ("transaction_id", JText (transaction_uuid e));
           ("orderid", JText (final_orderid e o));
           ("amount", JNumber a);
           ("sender_new_balance", JNumber (vs - a)%Q);
           ("receiver_new_balance", JNumber (vr + a)%Q)] ∧
    s' = {| db :=
              add_mutation
                {| m_id := credit_mutation_uuid e; m_user_id := rid;
                   m_balance := mc; m_prev_balance := mcp; m_type := credit;
                   m_catatan := Some (transaction_uuid e);
                   m_transaction_id := Some (transaction_uuid e);
                   m_created_at := now_utc e |}
                (add_mutation
                   {| m_id := debit_mutation_uuid e; m_user_id := sid;
                      m_balance := md; m_prev_balance := mdp; m_type := debit;
                      m_catatan := Some (transaction_uuid e);
                      m_transaction_id := Some (transaction_uuid e);
                      m_created_at := now_utc e |}
                   (add_transaction
                      {| t_id := transaction_uuid e; t_sender_id := sid;
                         t_receiver_id := rid; t_amount := ca; t_paid := true;
                         t_orderid := final_orderid e o; t_bayarvia := via;
                         t_grandtotal := cg; t_namaproduk := n; t_catatan := c;
                         t_created_at := now_utc e; t_updated_at := now_utc e |}
                      (db s)));
            row_locks := row_locks s |}.
Proof.
  intros H.
  apply bind_Return in H as [H | (tid & s1 & Hs & H)];
    [by apply no_return_insert_transaction in H|].
  apply insert_transaction_Next in Hs as (-> & ca & cg & via & ? & ? & ? & ? & _ & ->).
  apply bind_Return in H as [H | (? & s2 & Hs & H)];
    [by apply no_return_insert_mutation in H|].
  apply insert_mutation_Next in Hs as (md & mdp & ? & ? & _ & ->).
  apply bind_Return in H as [H | (? & s3 & Hs & H)];
    [by apply no_return_insert_mutation in H|].
  apply insert_mutation_Next in Hs as (mc & mcp & ? & ? & _ & ->).
  injection H as <- <-.
  by eexists via, ca, cg, md, mdp, mc, mcp.
Qed.

Lemma handle_payment_body_Return e sid rid a o b n c s j s' :
  handle_payment_body e sid rid a o b n c s = Return j s' →
  (∃ msg code locked, rejection e sid rid a o (db s) msg code locked ∧
     j = error_json msg code ∧ db s' = db s ∧
     row_locks s' = row_locks s ++
       (if locked then rows_present (db s) [sid; rid] else [])) ∨
  applied e sid rid a o b n c s j s'.
Proof.
  unfold handle_payment_body. intros H.
  do 8 step_return H.
  rewrite bind_run, select_amount_for_update_run in H.
  destruct (balances (db s) !! sid) as [sb|] eqn:Hsb;
    rewrite bind_run, select_amount_for_update_run in H; cbn [db row_locks] in H;
    destruct (balances (db s) !! rid) as [rb|] eqn:Hrb.
  3,4: injection H as <- <-; left; eexists _, _, _; (split; [by econstructor|]);
     rewrite rows_present_two, Hsb, Hrb; cbn; rewrite ?app_nil_r; done. 
  - (* both rows exist *)
    apply bind_Return in H as [H | (? & ? & Hs & H)].
    { apply IF_RETURN_Return in H as (H & -> & ->).
      left; eexists _, _, _; (split; [by econstructor|]).
      rewrite rows_present_two, Hsb, Hrb; cbn. by rewrite <- app_assoc. }
    apply IF_RETURN_Next in Hs as [Hfunds ->].
    apply bind_Return in H as [H | (? & s1 & Hs & H)];
      [by apply no_return_update_balance in H|].
    apply update_balance_Next in Hs. cbn [db] in Hs. rewrite Hsb in Hs.
    destruct Hs as (cs & Hcs & ->).
    apply bind_Return in H as [H | (vr & s2 & Hs & H)].
    { apply bind_Return in H as [H | (? & ? & _ & H)];
        [by apply no_return_update_balance in H | done]. }
    apply bind_Next in Hs as (? & s3 & Hs & Hvr).
    injection Hvr as <- <-.
    apply update_balance_Next in Hs. cbn [db set_balances balances row_locks] in Hs.
    rewrite lookup_insert_ne, Hrb in Hs by by apply String.eqb_neq.
    destruct Hs as (cr & Hcr & ->).
    apply ledger_entries_Return in H
      as (via & ca & cg & md & mdp & mc & mcp & ? & ? & ? & ? & ? & ? & ? & ? & -> & ->).
    right. exists sb, (of_15_2 (b_amount rb)), via, cs, cr, ca, cg, md, mdp, mc, mcp.
    rewrite rows_present_two, Hsb, Hrb.
    unfold select_amount, add_mutation, add_transaction, set_balances.
    rewrite Hrb. cbn. rewrite <- ?app_assoc, ?app_nil_r. cbn.
    repeat split; done.
  - (* the receiver has no row *)
    apply bind_Return in H as [H | (? & ? & Hs & H)].
    { apply IF_RETURN_Return in H as (H & -> & ->).
      left; eexists _, _, _; (split; [by econstructor|]).
      rewrite rows_present_two, Hsb, Hrb; cbn. by rewrite ?app_nil_r. }
    apply IF_RETURN_Next in Hs as [Hfunds ->].
    apply bind_Return in H as [H | (? & s1 & Hs & H)];
      [by apply no_return_update_balance in H|].
    apply update_balance_Next in Hs. cbn [db] in Hs. rewrite Hsb in Hs.
    destruct Hs as (cs & Hcs & ->).
    apply bind_Return in H as [H | (vr & s2 & Hs & H)].
    { apply bind_Return in H as [H | (? & ? & _ & H)];
        [by apply no_return_insert_balance in H | done]. }
    apply bind_Next in Hs as (? & s3 & Hs & Hvr).
    injection Hvr as <- <-.
    apply insert_balance_Next in Hs as (cr & Hcr & _ & ->).
    apply ledger_entries_Return in H
      as (via & ca & cg & md & mdp & mc & mcp & ? & ? & ? & ? & ? & ? & ? & ? & -> & ->).
    right. exists sb, a, via, cs, cr, ca, cg, md, mdp, mc, mcp.
    rewrite rows_present_two, Hsb, Hrb.
    unfold select_amount, add_mutation, add_transaction, set_balances.
    rewrite Hrb. cbn. rewrite <- ?app_assoc, ?app_nil_r. cbn.
    repeat split; done.
Qed.

(** An early exit answers with its message and code, writes nothing, and
    keeps the locks it took. *)
Lemma rejection_Return e sid rid a o b n c s msg code locked :
  rejection e sid rid a o (db s) msg code locked →
  handle_payment_body e sid rid a o b n c s =
    Return (error_json msg code)
      {| db := db s;
         row_locks := row_locks s ++
           (if locked then rows_present (db s) [sid; rid] else []) |}.
Proof.
  destruct s as [d l]. cbn [db row_locks].
  destruct 1; unfold handle_payment_body;
    repeat (rewrite bind_run; first [ rewrite select_amount_for_update_run | idtac ];
            cbn [IF_RETURN query db row_locks negb];
            repeat match goal with H : _ = _ |- _ => rewrite H end;
            cbn [IF_RETURN query db row_locks negb]);
    rewrite ?rows_present_two, ?app_nil_r;
    repeat match goal with H : _ = _ |- _ => rewrite H end;
    try reflexivity;
    destruct (balances d !! rid); cbn; rewrite <- ?app_assoc, ?app_nil_r; reflexivity.
Qed.

(** ** The function, case by case *)

(** Every call ends in one of three ways: an early exit, the successful
    exit, or the exception handler after a rollback. *)
Lemma handle_payment_cases e sid rid a o b n c d :
  let r := handle_payment e sid rid a o b n c d in
  (∃ msg code locked, rejection e sid rid a o d msg code locked ∧
     r.1 = error_json msg code ∧ db r.2 = d ∧
     row_locks r.2 = if locked then rows_present d [sid; rid] else [])
  ∨ applied e sid rid a o b n c {| db := d; row_locks := [] |} r.1 r.2
  ∨ (∃ err, r = (error_json (SQLERRM err) "DATABASE_ERROR",
                 {| db := d; row_locks := [] |})).
Proof.
  cbv zeta. unfold handle_payment, handle_payment_in.
  destruct (handle_payment_body _ _ _ _ _ _ _ _ _) as [err|j s'|[]] eqn:H.
  - right; right. by exists err.
  - apply handle_payment_body_Return in H as [(msg & code & l & ? & ? & ? & ?)|H].
    + left. by exists msg, code, l.
    + right; by left.
Qed.

Lemma Qle_bool_false x y : Qle_bool x y = false ↔ (y < x)%Q.
Proof.
  rewrite <- not_true_iff_false, Qle_bool_iff.
  split; [apply Qnot_le_lt | apply Qlt_not_le].
Qed.

Lemma Qlt_bool_true x y : Qlt_bool x y = true ↔ (x < y)%Q.
Proof. unfold Qlt_bool. by rewrite negb_true_iff, Qle_bool_false. Qed.


(** The code of an early exit names its cause. *)
Lemma rejection_code_funds e sid rid a o d msg locked :
  rejection e sid rid a o d msg "INSUFFICIENT_FUNDS" locked →
  ∃ sb, balances d !! sid = Some sb ∧ Qlt_bool (of_15_2 (b_amount sb)) a = true.
Proof. inversion 1; subst. eauto. Qed.

(** The successful exit answers with the success object. *)
Lemma applied_answer e sid rid a o b n c s j s' :
  applied e sid rid a o b n c s j s' →
  json_get "success" j = Some (JBool true) ∧ json_get "code" j = None.
Proof.
  intros (sb & vr & via & cs & cr & ca & cg & md & mdp & mc & mcp & H).
  destruct_and!. by subst j.
Qed.

(** C10. For every input and every state [handle_payment] returns a JSON
    object: either the success object, or an object with an ['error']
    message and a ['code'], and in that case, the handler's answer to a
    raised error included, the database is exactly the one before the
    call. *)
Theorem handle_payment_error_object_and_rollback e sid rid a o b n c d :
  let r := handle_payment e sid rid a o b n c d in
  json_get "success" r.1 = Some (JBool true) ∨
  (json_get "success" r.1 = None ∧
   (∃ msg code, json_get "error" r.1 = Some (JText msg) ∧
                json_get "code" r.1 = Some (JText code)) ∧
   db r.2 = d).
Proof.
  pose proof (handle_payment_cases e sid rid a o b n c d) as H.
  cbv zeta in *.
  destruct H as [(msg & code & l & _ & Hj & Hd & _) | [H | (err & Hr)]].
  - right. rewrite Hj. cbn. eauto 10.
  - left. by apply applied_answer in H as [? _].
  - right. rewrite Hr. cbn. eauto 10.
Qed.

(** C3. When the amount is positive, sender and receiver differ and are
    both active, the order identifier is new and the sender has a balance
    row, the call fails with INSUFFICIENT_FUNDS exactly when the sender's
    balance is below the amount; that failure carries no success flag and
    leaves the database as it was. *)
Theorem insufficient_funds_iff e sid rid a o b n c d sb :
  (0 < a)%Q → sid ≠ rid →
  active_user_exists sid d = true → active_user_exists rid d = true →
  orderid_exists (final_orderid e o) d = false →
  balances d !! sid = Some sb →
  let r := handle_payment e sid rid a o b n c d in
  (json_get "code" r.1 = Some (JText "INSUFFICIENT_FUNDS") ↔
     (of_15_2 (b_amount sb) < a)%Q) ∧
  (json_get "code" r.1 = Some (JText "INSUFFICIENT_FUNDS") →
     json_get "success" r.1 = None ∧ db r.2 = d).
Proof.
  intros Ha Hne Hs Hr Ho Hsb.
  apply Qle_bool_false in Ha. apply String.eqb_neq in Hne.
  pose proof (handle_payment_cases e sid rid a o b n c d) as H.
  cbv zeta in *.
  destruct H as [(msg & code & l & Hrej & Hj & Hd & _) | [H | (err & Hres)]].
  - rewrite Hj. cbn. split; [split|].
    + intros [= ->]. apply rejection_code_funds in Hrej as (sb' & Hsb' & Hlt).
      apply Qlt_bool_true. congruence.
    + intros Hlt%Qlt_bool_true.
      pose proof (rejection_Return e sid rid a o b n c
        {| db := d; row_locks := [] |} _ _ _
        (reject_funds e sid rid a o d sb Ha Hne Hs Hr Ho Hsb Hlt)) as Hrun.
      unfold handle_payment, handle_payment_in in Hj. rewrite Hrun in Hj.
      cbn in Hj. by injection Hj as <- <-.
    + done.
  - apply applied_answer in H as Hans. destruct Hans as [_ Hcode].
    rewrite Hcode. split; [split; [done|]|done].
    intros Hlt%Qlt_bool_true.
    destruct H as (sb' & vr & via & cs & cr & ca & cg & md & mdp & mc & mcp & H).
    destruct_and!. cbn [db] in *. congruence.
  - rewrite Hres. cbn. split; [split; [done|]|done].
    intros Hlt%Qlt_bool_true.
    pose proof (rejection_Return e sid rid a o b n c
      {| db := d; row_locks := [] |} _ _ _
      (reject_funds e sid rid a o d sb Ha Hne Hs Hr Ho Hsb Hlt)) as Hrun.
    unfold handle_payment, handle_payment_in in Hres. rewrite Hrun in Hres.
    cbn in Hres. by injection Hres.
Qed.

Lemma insufficient_funds_iff_witness :
  let r := handle_payment Sample.clock Sample.alice Sample.bob (10001 # 100)
             None (Some "transfer") None None Sample.ledger in
  (json_get "code" r.1 = Some (JText "INSUFFICIENT_FUNDS") ↔
     (of_15_2 10000 < 10001 # 100)%Q) ∧
  (json_get "code" r.1 = Some (JText "INSUFFICIENT_FUNDS") →
     json_get "success" r.1 = None ∧ db r.2 = Sample.ledger).
Proof.
  apply (insufficient_funds_iff Sample.clock Sample.alice Sample.bob
           (10001 # 100) None (Some "transfer") None None Sample.ledger
           {| b_amount := 10000; b_updated_at := 0 |}).
  - reflexivity.
  - discriminate.
  - vm_compute; reflexivity.
  - vm_compute; reflexivity.
  - reflexivity.
  - vm_compute; reflexivity.
Defined.

(** The balance rows a call holds locked at its end are either none, or the
    existing rows among sender and receiver, taken in that order. *)
Lemma handle_payment_row_locks e sid rid a o b n c d :
  let r := handle_payment e sid rid a o b n c d in
  row_locks r.2 = [] ∨ row_locks r.2 = rows_present d [sid; rid].
Proof.
  pose proof (handle_payment_cases e sid rid a o b n c d) as H.
  cbv zeta in *.
  destruct H as [(msg & code & l & _ & _ & _ & Hl) | [H | (err & Hres)]].
  - rewrite Hl. destruct l; auto.
  - destruct H as (sb & vr & via & cs & cr & ca & cg & md & mdp & mc & mcp & H).
    destruct_and!. right. done.
  - rewrite Hres. by left.
Qed.

(** C9, as amended. A call that locks two balance rows locks the sender's
    row first and the receiver's row second, and no other row, whatever the
    order of the two identifiers. *)
Theorem locks_sender_then_receiver e sid rid a o b n c d k1 k2 rest :
  row_locks (handle_payment e sid rid a o b n c d).2 = k1 :: k2 :: rest →
  k1 = sid ∧ k2 = rid ∧ rest = [] ∧
  is_Some (balances d !! sid) ∧ is_Some (balances d !! rid).
Proof.
  intros Hl.
  destruct (handle_payment_row_locks e sid rid a o b n c d) as [H|H];
    cbv zeta in H; rewrite H in Hl; [done|].
  rewrite rows_present_two in Hl.
  destruct (balances d !! sid), (balances d !! rid); try done.
  injection Hl as <- <- <-. eauto.
Qed.

Lemma locks_sender_then_receiver_witness :
  Sample.bob = Sample.bob ∧ Sample.alice = Sample.alice ∧ @nil uuid = [] ∧
  is_Some (balances Sample.ledger !! Sample.bob) ∧
  is_Some (balances Sample.ledger !! Sample.alice).
Proof.
  apply (locks_sender_then_receiver Sample.clock Sample.bob Sample.alice 30
           None (Some "transfer") None None Sample.ledger
           Sample.bob Sample.alice []).
  vm_compute. reflexivity.
Defined.

(** C9, counterexample. bob pays alice: both rows are locked, bob's first,
    although alice's identifier sorts lower. *)
Lemma lock_order_counterexample :
  row_locks Sample.reverse_payment.2 = [Sample.bob; Sample.alice] ∧
  String.ltb Sample.alice Sample.bob = true ∧
  ¬ lower_sorted_first (row_locks Sample.reverse_payment.2).
Proof.
  assert (row_locks Sample.reverse_payment.2 = [Sample.bob; Sample.alice])
    as -> by (vm_compute; reflexivity).
  split; [done|]. split; [reflexivity|].
  intros H. specialize (H _ _ _ eq_refl). vm_compute in H. discriminate.
Qed.

Lemma get_user_balance_row k d row :
  balances d !! k = Some row → get_user_balance k d = of_15_2 (b_amount row).
Proof. unfold get_user_balance, select_amount. by intros ->. Qed.

Lemma get_user_balance_no_row k d :
  balances d !! k = None → get_user_balance k d = 0%Q.
Proof. unfold get_user_balance, select_amount. by intros ->. Qed.

(** C8. [get_user_balance] returns the stored amount of the account's
    balance row, and zero when the account has no balance row; it returns
    a number in every case. *)
Theorem get_user_balance_stored_or_zero k d :
  get_user_balance k d =
    match balances d !! k with
    | Some row => of_15_2 (b_amount row)
    | None => 0%Q
    end.
Proof.
  destruct (balances d !! k) as [row|] eqn:Hk.
  - by apply get_user_balance_row.
  - by apply get_user_balance_no_row.
Qed.

(** * What the code does when amounts are whole hundredths *)

(** A value that is a whole number of hundredths is stored unchanged. *)
Lemma round_half_away_exact q c : (q == c # 100)%Q → round_half_away q = c.
Proof.
  unfold Qeq, round_half_away. cbn [Qnum Qden]. intros ->.
  set (d := Z.pos (Qden q)). assert (0 < d) by (subst d; lia).
  destruct (Z.leb_spec 0 (c * d)).
  - symmetry. apply Z.div_unique_pos with (r := d); nia.
  - rewrite <- (Z.opp_involutive c) at 2. f_equal.
    symmetry. apply Z.div_unique_pos with (r := d); nia.
Qed.

Lemma to_15_2_exact q c x : (q == c # 100)%Q → to_15_2 q = inr x → x = c.
Proof.
  intros Hq. unfold to_15_2. rewrite (round_half_away_exact q c Hq).
  case_match; congruence.
Qed.

Lemma of_15_2_minus x q c : (q == c # 100)%Q → (of_15_2 x - q == (x - c) # 100)%Q.
Proof.
  intros ->. unfold of_15_2, Qeq, Qminus, Qplus, Qopp. cbn. lia.
Qed.

Lemma of_15_2_plus x q c : (q == c # 100)%Q → (of_15_2 x + q == (x + c) # 100)%Q.
Proof.
  intros ->. unfold of_15_2, Qeq, Qplus. cbn. lia.
Qed.

(** Replacing or adding one balance row changes the total by the difference
    of the amounts. *)
Lemma total_balances_insert (m : gmap uuid balance_row) k row :
  map_fold (λ _ r acc, b_amount r + acc) 0 (<[k := row]> m) =
  map_fold (λ _ r acc, b_amount r + acc) 0 m
  - match m !! k with Some r => b_amount r | None => 0 end
  + b_amount row.
Proof.
  destruct (m !! k) as [r|] eqn:Hk.
  - rewrite <- insert_delete_eq.
    rewrite (map_fold_delete_L _ _ k r m); [|intros; lia|done].
    rewrite map_fold_insert_L; [lia|intros; lia|apply lookup_delete_eq].
  - rewrite map_fold_insert_L; [lia|intros; lia|done].
Qed.

Lemma handle_payment_success_applied e sid rid a o b n c d :
  let r := handle_payment e sid rid a o b n c d in
  json_get "success" r.1 = Some (JBool true) →
  applied e sid rid a o b n c {| db := d; row_locks := [] |} r.1 r.2.
Proof.
  pose proof (handle_payment_cases e sid rid a o b n c d) as H.
  cbv zeta in *.
  destruct H as [(msg & code & l & _ & -> & _) | [H | (err & ->)]]; done.
Qed.

(** A non-positive amount is refused by the first statement, whatever the
    database holds: nothing is read, locked or written. *)
Lemma handle_payment_invalid_amount e sid rid a o b n c d :
  (a <= 0)%Q →
  handle_payment e sid rid a o b n c d =
    (error_json "Amount must be greater than 0" "INVALID_AMOUNT",
     {| db := d; row_locks := [] |}).
Proof.
  intros Ha%Qle_bool_iff. unfold handle_payment, handle_payment_in.
  rewrite (rejection_Return e sid rid a o b n c
             {| db := d; row_locks := [] |} _ _ _
             (reject_amount e sid rid a o d Ha)).
  done.
Qed.

(** The balances a successful call answers with: the sender's is the prior
    balance less the amount and is not negative; the receiver's is the
    prior balance plus the amount when she had a row, and twice the amount
    when she had none. *)
Lemma handle_payment_returned_balances e sid rid a o b n c d :
  let r := handle_payment e sid rid a o b n c d in
  json_get "success" r.1 = Some (JBool true) →
  json_get "sender_new_balance" r.1
    = Some (JNumber (get_user_balance sid d - a)) ∧
  (0 <= get_user_balance sid d - a)%Q ∧
  json_get "receiver_new_balance" r.1
    = Some (JNumber (match balances d !! rid with
                     | Some row => of_15_2 (b_amount row) + a
                     | None => a + a
                     end)).
Proof.
  intros r H%handle_payment_success_applied. fold r in H.
  destruct H as (sb & vr & via & cs & cr & ca & cg & md & mdp & mc & mcp & H).
  destruct_and!. cbn [db] in *.
  match goal with H : balances d !! sid = _ |- _ =>
    rewrite (get_user_balance_row _ _ _ H) end.
  match goal with H : r.1 = _ |- _ => rewrite H end. cbn.
  split; [done|]. split.
  - match goal with H : Qlt_bool _ _ = false |- _ =>
      unfold Qlt_bool in H; apply negb_false_iff, Qle_bool_iff in H end.
    lra.
  - destruct (balances d !! rid); destruct_and!; by subst vr.
Qed.

(** A successful call appends one transaction row and two mutation rows,
    a debit for the sender and a credit for the receiver, both referring to
    the transaction. *)
Lemma handle_payment_success_rows e sid rid a o b n c d :
  let r := handle_payment e sid rid a o b n c d in
  json_get "success" r.1 = Some (JBool true) →
  ∃ t m_debit m_credit,
    transactions (db r.2) = transactions d ++ [t] ∧
    mutations (db r.2) = mutations d ++ [m_debit; m_credit] ∧
    t_sender_id t = sid ∧ t_receiver_id t = rid ∧ t_paid t = true ∧
    m_user_id m_debit = sid ∧ m_type m_debit = debit ∧
    m_user_id m_credit = rid ∧ m_type m_credit = credit ∧
    m_transaction_id m_debit = Some (t_id t) ∧
    m_transaction_id m_credit = Some (t_id t).
Proof.
  intros r H%handle_payment_success_applied. fold r in H.
  destruct H as (sb & vr & via & cs & cr & ca & cg & md & mdp & mc & mcp & H).
  destruct_and!.
  match goal with H : db r.2 = _ |- _ => rewrite H end. cbn.
  do 3 eexists. repeat split; reflexivity.
Qed.

(** With an amount of [cents] whole hundredths, a successful call takes
    exactly [cents] from the sender's row and adds exactly [cents] to the
    receiver's row, creating it with [cents] when she had none. *)
Lemma handle_payment_cent_aligned e sid rid a o b n c d cents :
  (a == cents # 100)%Q →
  let r := handle_payment e sid rid a o b n c d in
  json_get "success" r.1 = Some (JBool true) →
  ∃ sb, balances d !! sid = Some sb ∧ sid ≠ rid ∧
    0 < cents <= b_amount sb ∧
    balances (db r.2) =
      <[rid := {| b_amount :=
                    match balances d !! rid with
                    | Some row => b_amount row + cents
                    | None => cents
                    end;
                  b_updated_at := now_utc e |}]>
        (<[sid := {| b_amount := b_amount sb - cents;
                     b_updated_at := now_utc e |}]> (balances d)).
Proof.
  intros Ha r H%handle_payment_success_applied. fold r in H.
  destruct H as (sb & vr & via & cs & cr & ca & cg & md & mdp & mc & mcp & H).
  destruct_and!. cbn [db] in *.
  exists sb. split; [done|]. split; [by apply String.eqb_neq|].
  assert (cs = b_amount sb - cents) as ->
    by (eapply to_15_2_exact; [by apply of_15_2_minus|done]).
  assert (ca = cents) as -> by by eapply to_15_2_exact.
  split.
  { split; [done|].
    match goal with H : Qlt_bool _ _ = false |- _ =>
      unfold Qlt_bool in H; apply negb_false_iff, Qle_bool_iff in H;
      rewrite Ha in H; unfold of_15_2, Qle in H; cbn in H end.
    lia. }
  match goal with H : db r.2 = _ |- _ => rewrite H end. cbn.
  destruct (balances d !! rid) as [rb|]; destruct_and!.
  - assert (cr = b_amount rb + cents) as ->
      by (eapply to_15_2_exact; [by apply of_15_2_plus|done]).
    done.
  - by assert (cr = cents) as -> by by eapply to_15_2_exact.
Qed.

(** With an amount of whole hundredths a successful call leaves the sum of
    all stored balances unchanged. *)
Lemma handle_payment_conserves_total e sid rid a o b n c d cents :
  (a == cents # 100)%Q →
  let r := handle_payment e sid rid a o b n c d in
  json_get "success" r.1 = Some (JBool true) →
  total_balances (db r.2) = total_balances d.
Proof.
  intros Ha r H.
  destruct (handle_payment_cent_aligned e sid rid a o b n c d cents Ha H)
    as (sb & Hsb & Hne & _ & Hbal).
  unfold total_balances. fold r in Hbal. rewrite Hbal.
  rewrite !total_balances_insert, lookup_insert_ne, Hsb by done. cbn.
  destruct (balances d !! rid); cbn; lia.
Qed.

(** * What the mutation route computes *)




(** [GET_SUMMARY] covers every mutation of the account. *)
Lemma GET_SUMMARY_population userId d :
  (MutRoute.GET_SUMMARY userId d).1
  = MutRoute.summarize (MutRoute.matching userId None d).
Proof.
  unfold MutRoute.GET_SUMMARY, MutRoute.matching. cbn. f_equal.
  induction (mutations d) as [|x l IH]; [done|]. cbn.
  rewrite andb_true_r. destruct (MutRoute.eq_user userId x); by rewrite IH.
Qed.

(** * Behaviour on concrete ledgers *)

(** Sender at 100.00, receiver at 50.00, transfer of 30.00: success, the
    balances become 70.00 and 80.00 and the two mutations record 100 -> 70
    and 50 -> 80. *)
Example payment_100_50_transfer_30 :
  json_get "success" Sample.usual_payment.1 = Some (JBool true) ∧
  b_amount <$> balances (db Sample.usual_payment.2) !! Sample.alice = Some 7000 ∧
  b_amount <$> balances (db Sample.usual_payment.2) !! Sample.bob = Some 8000 ∧
  (λ m, (m_type m, m_prev_balance m, m_balance m))
    <$> mutations (db Sample.usual_payment.2)
    = [(debit, 10000, 7000); (credit, 5000, 8000)] ∧
  total_balances (db Sample.usual_payment.2) = total_balances Sample.ledger.
Proof. vm_compute. repeat split; reflexivity. Qed.

(** C1. With a receiver that has no balance row the call succeeds and
    stores 25.00 for her, yet answers a receiver balance of 50: the prior
    balance (zero) plus twice the amount. *)
Theorem receiver_new_balance_doubled_without_row :
  json_get "success" Sample.first_credit.1 = Some (JBool true) ∧
  get_user_balance Sample.carol Sample.ledger = 0%Q ∧
  json_get "sender_new_balance" Sample.first_credit.1
    = Some (JNumber (get_user_balance Sample.alice Sample.ledger - 25)) ∧
  json_get "receiver_new_balance" Sample.first_credit.1 = Some (JNumber (25 + 25)) ∧
  ¬ (25 + 25 == get_user_balance Sample.carol Sample.ledger + 25)%Q ∧
  (get_user_balance Sample.carol (db Sample.first_credit.2) == 25)%Q.
Proof. vm_compute. repeat split; try reflexivity; discriminate. Qed.

(** C2. The same call adds one transaction row and two mutation rows that
    refer to it; the debit row's balance change is -25.00, but the credit
    row records a prior balance of 0 and a balance of 50.00, a change of
    twice the amount. *)
Theorem credit_mutation_doubled_without_row :
  ∃ t m_debit m_credit,
    transactions (db Sample.first_credit.2) = transactions Sample.ledger ++ [t] ∧
    mutations (db Sample.first_credit.2) = mutations Sample.ledger ++ [m_debit; m_credit] ∧
    m_transaction_id m_debit = Some (t_id t) ∧
    m_transaction_id m_credit = Some (t_id t) ∧
    m_type m_debit = debit ∧ m_type m_credit = credit ∧
    m_balance m_debit - m_prev_balance m_debit = - 2500 ∧
    m_prev_balance m_credit = 0 ∧
    m_balance m_credit - m_prev_balance m_credit = 2 * 2500.
Proof. vm_compute. do 3 eexists. repeat split; reflexivity. Qed.


(** C7. The payment request schema accepts 0.015 and the call succeeds;
    alice's stored balance goes down by 0.01 and bob's up by 0.02, so the
    sum of the stored balances grows by 0.01. *)
Theorem fraction_of_cent_changes_total :
  paymentRequestSchema_amount (15 # 1000) = true ∧
  json_get "success" Sample.fraction_of_cent.1 = Some (JBool true) ∧
  b_amount <$> balances Sample.ledger !! Sample.alice = Some 10000 ∧
  b_amount <$> balances Sample.ledger !! Sample.bob = Some 5000 ∧
  b_amount <$> balances (db Sample.fraction_of_cent.2) !! Sample.alice = Some 9999 ∧
  b_amount <$> balances (db Sample.fraction_of_cent.2) !! Sample.bob = Some 5002 ∧
  total_balances Sample.ledger = 15000 ∧
  total_balances (db Sample.fraction_of_cent.2) = 15001.
Proof. vm_compute. repeat split; reflexivity. Qed.


(** C4. 10.005 has more than two fractional digits: the two-decimal test
    of the balance schema and of [isValidAmount] rejects it, but the
    payment schema accepts it and [handle_payment] does not answer
    INVALID_AMOUNT: it succeeds and rewrites both balances. *)
Theorem excess_precision_amount_accepted :
  at_most_2_decimal_places (2001 # 200) = false ∧
  balanceUpdateSchema_amount (2001 # 200) = false ∧
  isValidAmount (2001 # 200) = false ∧
  paymentRequestSchema_amount (2001 # 200) = true ∧
  json_get "code" Sample.excess_precision.1 = None ∧
  json_get "success" Sample.excess_precision.1 = Some (JBool true) ∧
  b_amount <$> balances (db Sample.excess_precision.2) !! Sample.alice = Some 9000 ∧
  b_amount <$> balances (db Sample.excess_precision.2) !! Sample.bob = Some 6001 ∧
  db Sample.excess_precision.2 ≠ Sample.ledger.
Proof.
  vm_compute. repeat split; try reflexivity.
  intros H. apply (f_equal transactions) in H. discriminate.
Qed.

(** C5. alice has three mutations. With [limit=1] the summary covers the
    newest one only; with [limit=2] it covers two; neither is the summary
    of her whole history, which [GET_SUMMARY] returns. *)
Theorem summary_covers_page_only :
  MutRoute.summary_of (MutRoute.GET Sample.alice 1 0 None Sample.history)
    = Some {| MutRoute.total_debits := 0; MutRoute.total_credits := 5000;
              MutRoute.net_change := 5000 |} ∧
  MutRoute.summary_of (MutRoute.GET Sample.alice 2 0 None Sample.history)
    = Some {| MutRoute.total_debits := 3000; MutRoute.total_credits := 5000;
              MutRoute.net_change := 2000 |} ∧
  MutRoute.summarize (MutRoute.matching Sample.alice None Sample.history)
    = {| MutRoute.total_debits := 3000; MutRoute.total_credits := 15000;
         MutRoute.net_change := 12000 |} ∧
  (MutRoute.GET_SUMMARY Sample.alice Sample.history).1
    = MutRoute.summarize (MutRoute.matching Sample.alice None Sample.history).
Proof. vm_compute. repeat split; reflexivity. Qed.

(** C6. With [type=debit] the count is that of alice's debit mutations,
    one, but the page holds all three of her mutations, two of them
    credits. *)
Theorem type_filter_not_applied_to_page :
  MutRoute.total_of (MutRoute.GET Sample.alice 50 0 (Some debit) Sample.history) = Some 1 ∧
  Z.of_nat (length (MutRoute.matching Sample.alice (Some debit) Sample.history)) = 1 ∧
  fmap (M:=list) m_type <$> MutRoute.mutations_of (MutRoute.GET Sample.alice 50 0 (Some debit) Sample.history)
    = Some [credit; debit; credit].
Proof. vm_compute. repeat split; reflexivity. Qed.

(** * More about [handle_payment] *)

(** ** The statements, run forward *)

Lemma update_balance_run e k f s row c :
  balances (db s) !! k = Some row →
  to_15_2 (f (of_15_2 (b_amount row))) = inr c →
  update_balance e k f s =
    Next () {| db := set_balances
                       <[k := {| b_amount := c; b_updated_at := now_utc e |}]> (db s);
               row_locks := row_locks s |}.
Proof.
  intros Hk Hc. unfold update_balance. rewrite bind_run. cbn. rewrite Hk.
  rewrite bind_run. unfold cast_15_2. by rewrite Hc.
Qed.

Lemma active_user_known k d : active_user_exists k d = true → user_exists k d = true.
Proof.
  unfold active_user_exists, user_exists. destruct (users d !! k); [|done].
  intros _. by apply bool_decide_eq_true.
Qed.

Lemma insert_balance_run e k a s c :
  to_15_2 a = inr c → balances (db s) !! k = None →
  user_exists k (db s) = true →
  insert_balance e k a s =
    Next () {| db := set_balances
                       <[k := {| b_amount := c; b_updated_at := now_utc e |}]> (db s);
               row_locks := row_locks s |}.
Proof.
  intros Hc Hk Hu. unfold insert_balance, cast_15_2, query, guard_sql.
  rewrite bind_run, Hc, bind_run. cbn [db row_locks].
  rewrite bool_decide_eq_false_2 by (rewrite Hk; by intros [??]).
  rewrite bind_run. cbn [negb]. rewrite bind_run, bind_run, Hu. reflexivity.
Qed.

Lemma insert_transaction_run e sender receiver amount paid orderid bayarvia
    grandtotal namaproduk catatan s a g via :
  to_15_2 amount = inr a → to_15_2 grandtotal = inr g →
  bayarvia = Some via → 0 < a →
  transaction_id_exists (transaction_uuid e) (db s) = false →
  orderid_exists orderid (db s) = false →
  user_exists sender (db s) = true → user_exists receiver (db s) = true →
  insert_transaction e sender receiver amount paid orderid bayarvia
    grandtotal namaproduk catatan s =
  Next (transaction_uuid e)
    {| db := add_transaction
         {| t_id := transaction_uuid e; t_sender_id := sender;
            t_receiver_id := receiver; t_amount := a; t_paid := paid;
            t_orderid := orderid; t_bayarvia := via; t_grandtotal := g;
            t_namaproduk := namaproduk; t_catatan := catatan;
            t_created_at := now_utc e; t_updated_at := now_utc e |} (db s);
       row_locks := row_locks s |}.
Proof.
  intros Ha Hg -> Hpos Hid Ho Hs Hr.
  apply Z.ltb_lt in Hpos.
  unfold insert_transaction, cast_15_2, not_null, query, guard_sql, modify.
  repeat (rewrite bind_run; cbn [db row_locks]);
    rewrite ?Ha, ?Hg, ?Hpos, ?Hid, ?Ho, ?Hs, ?Hr; cbn [negb].
  repeat (rewrite bind_run; cbn [db row_locks];
          rewrite ?Ha, ?Hg, ?Hpos, ?Hid, ?Ho, ?Hs, ?Hr; cbn [negb]).
  reflexivity.
Qed.

Lemma insert_mutation_run e id user balance prev_balance type catatan
    transaction_id s b pb :
  to_15_2 balance = inr b → to_15_2 prev_balance = inr pb →
  mutation_id_exists id (db s) = false →
  user_exists user (db s) = true →
  transaction_id_exists transaction_id (db s) = true →
  insert_mutation e id user balance prev_balance type catatan transaction_id s =
  Next ()
    {| db := add_mutation
         {| m_id := id; m_user_id := user; m_balance := b;
            m_prev_balance := pb; m_type := type; m_catatan := Some catatan;
            m_transaction_id := Some transaction_id;
            m_created_at := now_utc e |} (db s);
       row_locks := row_locks s |}.
Proof.
  intros Hb Hpb Hid Hu Ht.
  unfold insert_mutation, cast_15_2, query, guard_sql, modify.
  repeat (rewrite bind_run; cbn [db row_locks];
          rewrite ?Hb, ?Hpb, ?Hid, ?Hu, ?Ht; cbn [negb]).
  reflexivity.
Qed.

(** A whole number of hundredths within the column's range is stored as it
    is. *)
Lemma to_15_2_in_range q c :
  (q == c # 100)%Q → Z.abs c < 10 ^ 15 → to_15_2 q = inr c.
Proof.
  intros Hq Hc. unfold to_15_2. rewrite (round_half_away_exact q c Hq).
  by apply Z.ltb_lt in Hc as ->.
Qed.

Lemma of_15_2_exact c : (of_15_2 c == c # 100)%Q.
Proof. reflexivity. Qed.

Lemma transaction_id_exists_add k t d :
  transaction_id_exists k (add_transaction t d)
  = transaction_id_exists k d || String.eqb (t_id t) k.
Proof.
  unfold transaction_id_exists, add_transaction. cbn.
  rewrite existsb_app. cbn. by rewrite orb_false_r.
Qed.

Lemma mutation_id_exists_add k m d :
  mutation_id_exists k (add_mutation m d)
  = mutation_id_exists k d || String.eqb (m_id m) k.
Proof.
  unfold mutation_id_exists, add_mutation. cbn.
  rewrite existsb_app. cbn. by rewrite orb_false_r.
Qed.

(** Side conditions of the write phase: a cast that is exact and in range,
    or a lookup in a state that earlier statements have extended. *)
Ltac payment_side :=
  first
    [ done
    | apply to_15_2_in_range;
        [first [done | by apply of_15_2_plus | by apply of_15_2_minus]|lia]
    | cbn [db]; unfold add_mutation, add_transaction, set_balances,
        transaction_id_exists, mutation_id_exists, orderid_exists, user_exists in *;
      cbn; rewrite ?existsb_app; cbn; rewrite ?String.eqb_refl, ?orb_true_r;
      repeat match goal with
             | H : ?l = false |- context [?l] => rewrite H
             end;
      first [done | by rewrite lookup_insert_ne] ].

(** Sufficient conditions for success.  A payment of a positive whole number
    of hundredths between two different active accounts goes through when
    the sender's row covers it, the order id and the generated row ids are
    new, a payment method is given and no stored or recorded amount leaves
    the range of NUMERIC(15,2); for a receiver without a balance row that
    range must hold twice the amount, which the credit mutation records. *)
Theorem handle_payment_succeeds e sid rid a o via n c d cents sb :
  (a == cents # 100)%Q → 0 < cents →
  sid ≠ rid →
  active_user_exists sid d = true → active_user_exists rid d = true →
  orderid_exists (final_orderid e o) d = false →
  balances d !! sid = Some sb → cents <= b_amount sb < 10 ^ 15 →
  match balances d !! rid with
  | Some rb => - 10 ^ 15 < b_amount rb ∧ b_amount rb + cents < 10 ^ 15
  | None => 2 * cents < 10 ^ 15
  end →
  transaction_id_exists (transaction_uuid e) d = false →
  mutation_id_exists (debit_mutation_uuid e) d = false →
  mutation_id_exists (credit_mutation_uuid e) d = false →
  debit_mutation_uuid e ≠ credit_mutation_uuid e →
  json_get "success" (handle_payment e sid rid a o (Some via) n c d).1
    = Some (JBool true).
Proof.
  intros Ha Hpos Hne Hs Hr Ho Hsb [Hle Hmax] Hrb Htid Hmd Hmc Hdc.
  assert (Qle_bool a 0 = false) as Ha0.
  { apply Qle_bool_false. rewrite Ha. unfold Qlt. cbn. lia. }
  assert (Qlt_bool (of_15_2 (b_amount sb)) a = false) as Hfunds.
  { unfold Qlt_bool. apply negb_false_iff, Qle_bool_iff.
    rewrite Ha. unfold of_15_2, Qle. cbn. lia. }
  apply String.eqb_neq in Hne as Hne'.
  pose proof (active_user_known _ _ Hs) as Hsk.
  pose proof (active_user_known _ _ Hr) as Hrk.
  assert (to_15_2 (of_15_2 (b_amount sb) - a) = inr (b_amount sb - cents)) as Hcs
    by (apply to_15_2_in_range; [by apply of_15_2_minus|lia]).
  assert (to_15_2 a = inr cents) as Hca by (apply to_15_2_in_range; [done|lia]).
  assert (to_15_2 (of_15_2 (b_amount sb)) = inr (b_amount sb)) as Hmdp
    by (apply to_15_2_in_range; [done|lia]).
  apply String.eqb_neq in Hdc as Hdc'.
  unfold handle_payment, handle_payment_in, handle_payment_body.
  repeat (rewrite bind_run; cbn [IF_RETURN query db row_locks negb];
          rewrite ?Ha0, ?Hne', ?Hs, ?Hr, ?Ho; cbn [IF_RETURN query db row_locks negb]).
  rewrite select_amount_for_update_run. cbn [db row_locks]. rewrite Hsb.
  rewrite bind_run, select_amount_for_update_run. cbn [db row_locks].
  destruct (balances d !! rid) as [rb|] eqn:Hrow.
  - destruct Hrb as [Hrb1 Hrb2].
    rewrite bind_run, Hfunds. unfold IF_RETURN. cbv iota beta.
    rewrite bind_run, (update_balance_run _ _ _ _ sb (b_amount sb - cents)) by done.
    cbv iota beta. rewrite bind_run, bind_run.
    rewrite (update_balance_run _ _ _ _ rb (b_amount rb + cents))
      by payment_side.
    cbn [mret plpgsql_ret]. cbv iota beta.
    rewrite bind_run, (insert_transaction_run _ _ _ _ _ _ _ _ _ _ _ cents cents via)
      by payment_side.
    cbv iota beta.
    rewrite bind_run, (insert_mutation_run _ _ _ _ _ _ _ _ _
                         (b_amount sb - cents) (b_amount sb))
      by payment_side.
    cbv iota beta.
    rewrite bind_run, (insert_mutation_run _ _ _ _ _ _ _ _ _
                         (b_amount rb + cents) (b_amount rb))
      by payment_side.
    reflexivity.
  - rewrite bind_run, Hfunds. unfold IF_RETURN. cbv iota beta.
    rewrite bind_run, (update_balance_run _ _ _ _ sb (b_amount sb - cents)) by done.
    cbv iota beta. rewrite bind_run, bind_run.
    rewrite (insert_balance_run _ _ _ _ cents) by payment_side.
    cbn [mret plpgsql_ret]. cbv iota beta.
    rewrite bind_run, (insert_transaction_run _ _ _ _ _ _ _ _ _ _ _ cents cents via)
      by payment_side.
    cbv iota beta.
    rewrite bind_run, (insert_mutation_run _ _ _ _ _ _ _ _ _
                         (b_amount sb - cents) (b_amount sb))
      by payment_side.
    cbv iota beta.
    rewrite bind_run, (insert_mutation_run _ _ _ _ _ _ _ _ _ (2 * cents) 0)
      by (payment_side || (apply to_15_2_in_range; [|lia];
                           rewrite Ha; unfold Qeq, Qplus; cbn; lia)).
    reflexivity.
Qed.

(** ** Fresh identifiers *)

(** One statement of the test phase of a call known to succeed. *)
Ltac step_success H Hsucc :=
  let Hs := fresh "Hstep" in
  apply bind_Return in H as [H | (? & ? & Hs & H)];
  [ first [ apply IF_RETURN_Return in H as (_ & -> & ->); discriminate Hsucc
          | by unfold query in H ]
  | first [ apply IF_RETURN_Next in Hs as [Hs ->]; rewrite ?negb_false_iff in Hs
          | apply query_Next in Hs as [-> ->] ] ].

Lemma ledger_entries_fresh e sid rid a o b n c (vs vr vrp : numeric) s
    (k : uuid → json) j s' :
  (v_transaction_id ←
     insert_transaction e sid rid a true (final_orderid e o) b a n c;
   insert_mutation e (debit_mutation_uuid e) sid (vs - a)%Q vs debit
     v_transaction_id v_transaction_id ;;
   insert_mutation e (credit_mutation_uuid e) rid (vr + a)%Q vrp credit
     v_transaction_id v_transaction_id ;;
   RETURN (A:=Empty_set) (k v_transaction_id)) s = Return j s' →
  transaction_id_exists (transaction_uuid e) (db s) = false ∧
  mutation_id_exists (debit_mutation_uuid e) (db s) = false ∧
  mutation_id_exists (credit_mutation_uuid e) (db s) = false ∧
  debit_mutation_uuid e ≠ credit_mutation_uuid e.
Proof.
  intros H.
  apply bind_Return in H as [H | (tid & s1 & Hs & H)];
    [by apply no_return_insert_transaction in H|].
  apply insert_transaction_Next in Hs as (-> & ca & cg & via & _ & _ & _ & _ & Ht & ->).
  apply bind_Return in H as [H | (? & s2 & Hs & H)];
    [by apply no_return_insert_mutation in H|].
  apply insert_mutation_Next in Hs as (md & mdp & _ & _ & Hd & ->).
  apply bind_Return in H as [H | (? & s3 & Hs & H)];
    [by apply no_return_insert_mutation in H|].
  apply insert_mutation_Next in Hs as (mc & mcp & _ & _ & Hc & ->).
  cbn [db] in *. rewrite mutation_id_exists_add in Hc.
  apply orb_false_iff in Hc as [Hc Hdc]. cbn in Hdc.
  repeat split; try done. by apply String.eqb_neq.
Qed.

(** A call succeeds only if the identifiers generated for the transaction
    row and the two mutation rows are new and the two mutation identifiers
    differ. *)
Lemma handle_payment_fresh_ids e sid rid a o b n c d :
  json_get "success" (handle_payment e sid rid a o b n c d).1 = Some (JBool true) →
  transaction_id_exists (transaction_uuid e) d = false ∧
  mutation_id_exists (debit_mutation_uuid e) d = false ∧
  mutation_id_exists (credit_mutation_uuid e) d = false ∧
  debit_mutation_uuid e ≠ credit_mutation_uuid e.
Proof.
  unfold handle_payment, handle_payment_in.
  destruct (handle_payment_body _ _ _ _ _ _ _ _ _) as [err|j s'|[]] eqn:H;
    [done|]. cbn [fst]. intros Hsucc.
  unfold handle_payment_body in H.
  do 8 step_success H Hsucc.
  rewrite bind_run, select_amount_for_update_run in H. cbn [db row_locks] in H.
  destruct (balances d !! sid) as [sb|] eqn:Hsb;
    rewrite bind_run, select_amount_for_update_run in H; cbn [db row_locks] in H;
    destruct (balances d !! rid) as [rb|] eqn:Hrb;
    try (injection H as <- <-; discriminate Hsucc).
  - step_success H Hsucc.
    apply bind_Return in H as [H | (? & s1 & Hs & H)];
      [by apply no_return_update_balance in H|].
    apply update_balance_Next in Hs. cbn [db] in Hs. rewrite Hsb in Hs.
    destruct Hs as (cs & _ & ->).
    apply bind_Return in H as [H | (vr & s2 & Hs & H)].
    { apply bind_Return in H as [H | (? & ? & _ & H)];
        [by apply no_return_update_balance in H | done]. }
    apply bind_Next in Hs as (? & s3 & Hs & Hvr). injection Hvr as <- <-.
    apply update_balance_Next in Hs. cbn [db set_balances balances row_locks] in Hs.
    rewrite lookup_insert_ne, Hrb in Hs by by apply String.eqb_neq.
    destruct Hs as (cr & _ & ->).
    by apply ledger_entries_fresh in H.
  - step_success H Hsucc.
    apply bind_Return in H as [H | (? & s1 & Hs & H)];
      [by apply no_return_update_balance in H|].
    apply update_balance_Next in Hs. cbn [db] in Hs. rewrite Hsb in Hs.
    destruct Hs as (cs & _ & ->).
    apply bind_Return in H as [H | (vr & s2 & Hs & H)].
    { apply bind_Return in H as [H | (? & ? & _ & H)];
        [by apply no_return_insert_balance in H | done]. }
    apply bind_Next in Hs as (? & s3 & Hs & Hvr). injection Hvr as <- <-.
    apply insert_balance_Next in Hs as (cr & _ & _ & ->).
    by apply ledger_entries_fresh in H.
Qed.

(** ** Order of the tests *)

(** Paying oneself never goes through, and the amount is tested first: a
    call whose sender and receiver are the same account answers
    INVALID_AMOUNT when the amount is not positive and SELF_TRANSFER
    otherwise, whatever the accounts and balances are, and touches
    nothing. *)
Lemma handle_payment_same_account e k a o b n c d :
  handle_payment e k k a o b n c d =
    (if Qle_bool a 0
     then error_json "Amount must be greater than 0" "INVALID_AMOUNT"
     else error_json "Cannot send to yourself" "SELF_TRANSFER",
     {| db := d; row_locks := [] |}).
Proof.
  unfold handle_payment, handle_payment_in.
  destruct (Qle_bool a 0) eqn:Ha.
  - by rewrite (rejection_Return e k k a o b n c {| db := d; row_locks := [] |}
                  _ _ _ (reject_amount e k k a o d Ha)).
  - by rewrite (rejection_Return e k k a o b n c {| db := d; row_locks := [] |}
                  _ _ _ (reject_self e k k a o d Ha (String.eqb_refl k))).
Qed.

Lemma rejection_not_database_error e sid rid a o d msg code locked :
  rejection e sid rid a o d msg code locked → code ≠ "DATABASE_ERROR".
Proof. by destruct 1. Qed.

(** Apart from DATABASE_ERROR, a code is answered exactly when its test is
    the first to fail, the tests being made in the order: amount,
    self-transfer, sender, receiver, order id, sender's balance row, funds. *)
Theorem handle_payment_code_iff e sid rid a o b n c d code :
  code ≠ "DATABASE_ERROR" →
  json_get "code" (handle_payment e sid rid a o b n c d).1 = Some (JText code)
  ↔ ∃ msg locked, rejection e sid rid a o d msg code locked.
Proof.
  intros Hcode. split.
  - pose proof (handle_payment_cases e sid rid a o b n c d) as H.
    cbv zeta in H.
    destruct H as [(msg & code' & l & Hrej & -> & _) | [H | (err & ->)]].
    + cbn. intros [= ->]. eauto.
    + apply applied_answer in H as [_ ->]. done.
    + cbn. by intros [= <-].
  - intros (msg & locked & Hrej).
    unfold handle_payment, handle_payment_in.
    by rewrite (rejection_Return e sid rid a o b n c
                  {| db := d; row_locks := [] |} _ _ _ Hrej).
Qed.

Lemma handle_payment_code_iff_witness :
  json_get "code"
    (handle_payment Sample.clock Sample.alice Sample.bob (10001 # 100)
       None (Some "transfer") None None Sample.ledger).1
    = Some (JText "INSUFFICIENT_FUNDS")
  ↔ ∃ msg locked,
      rejection Sample.clock Sample.alice Sample.bob (10001 # 100) None
        Sample.ledger msg "INSUFFICIENT_FUNDS" locked.
Proof.
  apply (handle_payment_code_iff Sample.clock Sample.alice Sample.bob
           (10001 # 100) None (Some "transfer") None None Sample.ledger
           "INSUFFICIENT_FUNDS").
  discriminate.
Defined.

(** ** What a call leaves alone *)

(** Whatever the outcome, a call never changes the users table, never
    touches the balance row of a third account, and only ever appends to
    the transactions and mutations tables: at most one transaction row and
    at most two mutation rows, none removed or rewritten. *)
Theorem handle_payment_frame e sid rid a o b n c d :
  let d' := db (handle_payment e sid rid a o b n c d).2 in
  users d' = users d ∧
  (∀ k, k ≠ sid → k ≠ rid → balances d' !! k = balances d !! k) ∧
  (∃ ts, transactions d' = transactions d ++ ts ∧ (length ts <= 1)%nat) ∧
  (∃ ms, mutations d' = mutations d ++ ms ∧ (length ms <= 2)%nat).
Proof.
  pose proof (handle_payment_cases e sid rid a o b n c d) as H.
  cbv zeta in *.
  destruct H as [(msg & code & l & _ & _ & -> & _) | [H | (err & ->)]].
  - repeat split; try done; exists []; rewrite app_nil_r; (split; [done|cbn; lia]).
  - destruct H as (sb & vr & via & cs & cr & ca & cg & md & mdp & mc & mcp & H).
    destruct_and!.
    match goal with H : db _ = _ |- _ => rewrite H end. cbn.
    repeat split; try done.
    + intros k Hs Hr. by rewrite !lookup_insert_ne.
    + eexists. split; [done|]. cbn. lia.
    + eexists. split; [done|]. cbn. lia.
  - cbn. repeat split; try done; exists []; rewrite app_nil_r; (split; [done|cbn; lia]).
Qed.

(** ** Invariants *)

Lemma round_half_away_nonneg q : (0 <= q)%Q → 0 <= round_half_away q.
Proof.
  unfold Qle, round_half_away. cbn. intros Hq.
  assert (0 <= Qnum q * 100) as Hn by lia.
  apply Z.leb_le in Hn as Hb. rewrite Hb.
  apply Z.div_pos; lia.
Qed.

Lemma to_15_2_nonneg q c : (0 <= q)%Q → to_15_2 q = inr c → 0 <= c.
Proof.
  intros Hq. unfold to_15_2. case_match; [|done].
  intros [= <-]. by apply round_half_away_nonneg.
Qed.

Lemma of_15_2_nonneg c : 0 <= c → (0 <= of_15_2 c)%Q.
Proof. unfold of_15_2, Qle. cbn. lia. Qed.

(** If no stored balance is negative before a call, none is after it,
    whatever the outcome and whatever the precision of the amount. *)
Theorem handle_payment_keeps_balances_nonneg e sid rid a o b n c d :
  balances_nonneg d →
  balances_nonneg (db (handle_payment e sid rid a o b n c d).2).
Proof.
  intros Hd.
  pose proof (handle_payment_cases e sid rid a o b n c d) as H.
  cbv zeta in *.
  destruct H as [(msg & code & l & _ & _ & -> & _) | [H | (err & ->)]]; [done| |done].
  destruct H as (sb & vr & via & cs & cr & ca & cg & md & mdp & mc & mcp & H).
  destruct_and!. cbn [db] in *.
  match goal with H : db _ = _ |- _ => rewrite H end.
  unfold balances_nonneg in *. cbn.
  assert (0 < a)%Q as Ha by by apply Qle_bool_false.
  assert (a <= of_15_2 (b_amount sb))%Q as Hfunds.
  { match goal with H : Qlt_bool _ _ = false |- _ =>
      unfold Qlt_bool in H; by apply negb_false_iff, Qle_bool_iff in H end. }
  apply map_Forall_insert_2; [|apply map_Forall_insert_2; [|done]]; cbn.
  - destruct (balances d !! rid) as [rb|] eqn:Hrb; destruct_and!.
    + eapply to_15_2_nonneg; [|done].
      pose proof (of_15_2_nonneg _ (Hd _ _ Hrb)). lra.
    + eapply to_15_2_nonneg; [|done]. lra.
  - eapply to_15_2_nonneg; [|done]. lra.
Qed.

Lemma handle_payment_keeps_balances_nonneg_witness :
  balances_nonneg (db Sample.fraction_of_cent.2).
Proof.
  apply (handle_payment_keeps_balances_nonneg Sample.clock Sample.alice
           Sample.bob (15 # 1000) (Some "ORDER_1") (Some "transfer") None None
           Sample.ledger).
  unfold balances_nonneg, Sample.ledger. cbn.
  repeat (apply map_Forall_insert_2; [cbn; lia|]).
  apply map_Forall_empty.
Defined.

Lemma orderid_exists_elem o d :
  orderid_exists o d = false → o ∉ t_orderid <$> transactions d.
Proof.
  unfold orderid_exists. intros H Hin.
  apply list_elem_of_fmap in Hin as (t & -> & Ht).
  apply not_true_iff_false in H. apply H, existsb_exists.
  exists t. split; [by apply list_elem_of_In|apply String.eqb_refl].
Qed.

Lemma transaction_id_exists_elem k d :
  transaction_id_exists k d = false → k ∉ t_id <$> transactions d.
Proof.
  unfold transaction_id_exists. intros H Hin.
  apply list_elem_of_fmap in Hin as (t & -> & Ht).
  apply not_true_iff_false in H. apply H, existsb_exists.
  exists t. split; [by apply list_elem_of_In|apply String.eqb_refl].
Qed.

Lemma mutation_id_exists_elem k d :
  mutation_id_exists k d = false → k ∉ m_id <$> mutations d.
Proof.
  unfold mutation_id_exists. intros H Hin.
  apply list_elem_of_fmap in Hin as (m & -> & Hm).
  apply not_true_iff_false in H. apply H, existsb_exists.
  exists m. split; [by apply list_elem_of_In|apply String.eqb_refl].
Qed.

(** The function keeps the keys of its tables unique by its own tests: if
    order ids, transaction ids and mutation ids are pairwise different
    before a call, they are after it. *)
Theorem handle_payment_keeps_keys_unique e sid rid a o b n c d :
  keys_unique d →
  keys_unique (db (handle_payment e sid rid a o b n c d).2).
Proof.
  intros (Ho & Ht & Hm).
  pose proof (handle_payment_cases e sid rid a o b n c d) as H.
  cbv zeta in *.
  destruct H as [(msg & code & l & _ & _ & Hd & _) | [H | (err & Hres)]];
    [by rewrite Hd| |by rewrite Hres].
  pose proof (handle_payment_fresh_ids e sid rid a o b n c d
                (proj1 (applied_answer _ _ _ _ _ _ _ _ _ _ _ H)))
    as (Hft & Hfd & Hfc & Hdc).
  destruct H as (sb & vr & via & cs & cr & ca & cg & md & mdp & mc & mcp & H).
  destruct_and!. cbn [db] in *.
  match goal with H : db _ = _ |- _ => rewrite H end.
  unfold keys_unique. cbn. rewrite !fmap_app. cbn.
  repeat split.
  - apply NoDup_app. split; [done|]. split; [|apply NoDup_singleton].
    intros x Hx [->|[]%elem_of_nil]%elem_of_cons.
    by eapply orderid_exists_elem.
  - apply NoDup_app. split; [done|]. split; [|apply NoDup_singleton].
    intros x Hx [->|[]%elem_of_nil]%elem_of_cons.
    by eapply transaction_id_exists_elem.
  - apply NoDup_app. split; [done|]. split.
    + intros x Hx [->|[->|[]%elem_of_nil]%elem_of_cons]%elem_of_cons.
      * by apply (mutation_id_exists_elem _ _ Hfd).
      * by apply (mutation_id_exists_elem _ _ Hfc).
    + apply NoDup_cons. split; [|apply NoDup_singleton].
      by intros [?|[]%elem_of_nil]%elem_of_cons.
Qed.

Lemma handle_payment_keeps_keys_unique_witness :
  keys_unique (db Sample.usual_payment.2).
Proof.
  apply (handle_payment_keeps_keys_unique Sample.clock Sample.alice Sample.bob
           30 None (Some "transfer") None None Sample.ledger).
  unfold keys_unique. cbn. repeat split; apply NoDup_nil_2.
Defined.

(** Every transaction row the function writes has a positive amount, a
    grand total equal to the amount, different sender and receiver, and is
    marked paid: if all rows are so before a call, all are after it. *)
Theorem handle_payment_keeps_transactions_well_formed e sid rid a o b n c d :
  Forall transaction_well_formed (transactions d) →
  Forall transaction_well_formed
    (transactions (db (handle_payment e sid rid a o b n c d).2)).
Proof.
  intros Hd.
  pose proof (handle_payment_cases e sid rid a o b n c d) as H.
  cbv zeta in *.
  destruct H as [(msg & code & l & _ & _ & -> & _) | [H | (err & ->)]]; [done| |done].
  destruct H as (sb & vr & via & cs & cr & ca & cg & md & mdp & mc & mcp & H).
  destruct_and!. cbn [db] in *.
  match goal with H : db _ = _ |- _ => rewrite H end. cbn.
  apply Forall_app. split; [done|]. apply Forall_singleton.
  unfold transaction_well_formed. cbn.
  repeat split; [done|congruence|by apply String.eqb_neq].
Qed.

Lemma handle_payment_keeps_transactions_well_formed_witness :
  Forall transaction_well_formed (transactions (db Sample.usual_payment.2)).
Proof.
  apply (handle_payment_keeps_transactions_well_formed Sample.clock
           Sample.alice Sample.bob 30 None (Some "transfer") None None
           Sample.ledger).
  apply Forall_nil_2.
Defined.

(** ** What a successful call records *)

Lemma to_15_2_of_15_2 x y : to_15_2 (of_15_2 x) = inr y → y = x.
Proof. apply to_15_2_exact, of_15_2_exact. Qed.

(** The two mutation rows of a successful call agree with the balances
    table: the debit row holds the sender's stored balance before and after
    the call, the credit row holds the receiver's stored balance before
    the call (zero without a row) and, when the receiver had a row, her
    stored balance after it. *)
Theorem handle_payment_mutations_record_balances e sid rid a o b n c d :
  json_get "success" (handle_payment e sid rid a o b n c d).1 = Some (JBool true) →
  let d' := db (handle_payment e sid rid a o b n c d).2 in
  ∃ m_debit m_credit,
    mutations d' = mutations d ++ [m_debit; m_credit] ∧
    Some (m_prev_balance m_debit) = b_amount <$> balances d !! sid ∧
    Some (m_balance m_debit) = b_amount <$> balances d' !! sid ∧
    m_prev_balance m_credit = default 0 (b_amount <$> balances d !! rid) ∧
    (is_Some (balances d !! rid) →
     Some (m_balance m_credit) = b_amount <$> balances d' !! rid).
Proof.
  intros H%handle_payment_success_applied. cbv zeta in *.
  destruct H as (sb & vr & via & cs & cr & ca & cg & md & mdp & mc & mcp & H).
  destruct_and!. cbn [db] in *.
  match goal with H : db _ = _ |- _ => rewrite H end. cbn.
  do 2 eexists. split; [done|]. cbn.
  assert (sid ≠ rid) as Hne by by apply String.eqb_neq.
  rewrite lookup_insert_ne, !lookup_insert_eq by done.
  match goal with H : balances d !! sid = _ |- _ => rewrite H end. cbn.
  repeat split.
  - f_equal. by apply to_15_2_of_15_2.
  - f_equal. congruence.
  - unfold select_amount in *. destruct (balances d !! rid) as [rb|]; cbn in *.
    + by apply to_15_2_of_15_2.
    + match goal with H : to_15_2 0 = _ |- _ => vm_compute in H end. congruence.
  - intros [rb Hrb]. rewrite Hrb in *. destruct_and!. subst vr. cbn.
    f_equal. congruence.
Qed.

Lemma handle_payment_mutations_record_balances_witness :
  let d' := db Sample.usual_payment.2 in
  ∃ m_debit m_credit,
    mutations d' = mutations Sample.ledger ++ [m_debit; m_credit] ∧
    Some (m_prev_balance m_debit) = b_amount <$> balances Sample.ledger !! Sample.alice ∧
    Some (m_balance m_debit) = b_amount <$> balances d' !! Sample.alice ∧
    m_prev_balance m_credit
      = default 0 (b_amount <$> balances Sample.ledger !! Sample.bob) ∧
    (is_Some (balances Sample.ledger !! Sample.bob) →
     Some (m_balance m_credit) = b_amount <$> balances d' !! Sample.bob).
Proof.
  apply (handle_payment_mutations_record_balances Sample.clock Sample.alice
           Sample.bob 30 None (Some "transfer") None None Sample.ledger).
  vm_compute. reflexivity.
Defined.

Lemma round_half_away_pos q : (0 < q)%Q → 0 < round_half_away q → (1 # 200 <= q)%Q.
Proof.
  unfold Qlt, Qle, round_half_away. cbn. intros Hq.
  assert (0 <= Qnum q * 100) as Hn by lia.
  apply Z.leb_le in Hn as Hb. rewrite Hb. intros Hr.
  destruct (Z.lt_ge_cases (2 * (Qnum q * 100) + Z.pos (Qden q))
              (2 * Z.pos (Qden q))) as [Hsmall|Hbig]; [|lia].
  rewrite Z.div_small in Hr by lia. lia.
Qed.

(** Necessary conditions for success: the amount is at least 0.005 (it
    must round to a positive number of hundredths), sender and receiver
    differ and are active, the order id is new, a payment method is given,
    and the sender has a balance row that covers the amount. *)
Theorem handle_payment_success_requires e sid rid a o b n c d :
  json_get "success" (handle_payment e sid rid a o b n c d).1 = Some (JBool true) →
  (1 # 200 <= a)%Q ∧ sid ≠ rid ∧
  active_user_exists sid d = true ∧ active_user_exists rid d = true ∧
  orderid_exists (final_orderid e o) d = false ∧ is_Some b ∧
  ∃ sb, balances d !! sid = Some sb ∧ (a <= of_15_2 (b_amount sb))%Q.
Proof.
  intros H%handle_payment_success_applied. cbv zeta in *.
  destruct H as (sb & vr & via & cs & cr & ca & cg & md & mdp & mc & mcp & H).
  destruct_and!. cbn [db] in *. subst b.
  assert (0 < a)%Q as Ha by by apply Qle_bool_false.
  repeat split; try done.
  - apply round_half_away_pos; [done|].
    match goal with H : to_15_2 a = inr ca |- _ =>
      unfold to_15_2 in H; case_match; [|done]; by injection H as -> end.
  - by apply String.eqb_neq.
  - exists sb. split; [done|].
    match goal with H : Qlt_bool _ _ = false |- _ =>
      unfold Qlt_bool in H; by apply negb_false_iff, Qle_bool_iff in H end.
Qed.

Lemma handle_payment_success_requires_witness :
  (1 # 200 <= 30)%Q ∧ Sample.alice ≠ Sample.bob ∧
  active_user_exists Sample.alice Sample.ledger = true ∧
  active_user_exists Sample.bob Sample.ledger = true ∧
  orderid_exists (final_orderid Sample.clock None) Sample.ledger = false ∧
  is_Some (Some "transfer") ∧
  ∃ sb, balances Sample.ledger !! Sample.alice = Some sb ∧
        (30 <= of_15_2 (b_amount sb))%Q.
Proof.
  apply (handle_payment_success_requires Sample.clock Sample.alice Sample.bob
           30 None (Some "transfer") None None Sample.ledger).
  vm_compute. reflexivity.
Defined.

Lemma handle_payment_succeeds_witness :
  json_get "success" Sample.usual_payment.1 = Some (JBool true).
Proof.
  apply (handle_payment_succeeds Sample.clock Sample.alice Sample.bob 30 None
           "transfer" None None Sample.ledger 3000
           {| b_amount := 10000; b_updated_at := 0 |});
    first [ vm_compute; reflexivity
          | discriminate
          | vm_compute; split; first [reflexivity | discriminate] ].
Defined.

(** ** Calls one after another *)

Lemma orderid_exists_add o t d :
  orderid_exists o (add_transaction t d)
  = orderid_exists o d || String.eqb (t_orderid t) o.
Proof.
  unfold orderid_exists, add_transaction. cbn.
  rewrite existsb_app. cbn. by rewrite orb_false_r.
Qed.

Lemma final_orderid_given e x : final_orderid e (Some x) = x.
Proof. reflexivity. Qed.

(** Once a call has succeeded, its order id is spent: no later call on the
    resulting database that passes this order id succeeds or writes
    anything, whoever pays whom and whatever the amount; replaying the same
    payment is answered DUPLICATE_ORDERID. *)
Theorem handle_payment_order_id_used_once e sid rid a o b n c d
    e' sid' rid' a' b' n' c' :
  json_get "success" (handle_payment e sid rid a o b n c d).1 = Some (JBool true) →
  let d1 := db (handle_payment e sid rid a o b n c d).2 in
  let again :=
    handle_payment e' sid' rid' a' (Some (final_orderid e o)) b' n' c' d1 in
  json_get "success" again.1 = None ∧ db again.2 = d1 ∧
  (sid' = sid → rid' = rid → (0 < a')%Q →
   json_get "code" again.1 = Some (JText "DUPLICATE_ORDERID")).
Proof.
  intros H%handle_payment_success_applied. cbv zeta in *.
  destruct H as (sb & vr & via & cs & cr & ca & cg & md & mdp & mc & mcp & H).
  destruct_and!. cbn [db] in *.
  set (d1 := db (handle_payment e sid rid a o b n c d).2) in *.
  assert (orderid_exists (final_orderid e o) d1 = true) as Hused.
  { match goal with H : d1 = _ |- _ => rewrite H end.
    unfold orderid_exists. cbn. rewrite existsb_app. cbn.
    by rewrite String.eqb_refl, orb_true_r. }
  assert (∀ k, active_user_exists k d1 = active_user_exists k d) as Hactive.
  { intros k. unfold active_user_exists.
    match goal with H : d1 = _ |- _ => by rewrite H end. }
  pose proof (handle_payment_cases e' sid' rid' a'
                (Some (final_orderid e o)) b' n' c' d1) as Hagain.
  cbv zeta in Hagain.
  destruct Hagain
    as [(msg & code & l & Hrej & Hj & Hd & _) | [Hagain | (err & Hres)]].
  - rewrite Hj, Hd. repeat split; try done.
    intros -> -> Ha'%Qle_bool_false.
    inversion Hrej; subst; cbn;
      rewrite ?final_orderid_given, ?Hactive in *; congruence.
  - destruct Hagain as (?&?&?&?&?&?&?&?&?&?&?& Hagain). destruct_and!.
    cbn [db] in *. rewrite final_orderid_given in *. congruence.
  - rewrite Hres. cbn. repeat split; try done.
    intros -> -> Ha'%Qle_bool_false.
    assert (rejection e' sid rid a' (Some (final_orderid e o)) d1
              "Order ID already exists" "DUPLICATE_ORDERID" false) as Hrej
      by (constructor; rewrite ?Hactive, ?final_orderid_given; done).
    unfold handle_payment, handle_payment_in in Hres.
    rewrite (rejection_Return e' sid rid a' _ b' n' c'
               {| db := d1; row_locks := [] |} _ _ _ Hrej) in Hres.
    by injection Hres.
Qed.

Lemma handle_payment_order_id_used_once_witness :
  let d1 := db Sample.usual_payment.2 in
  let again :=
    handle_payment Sample.clock Sample.alice Sample.bob 30
      (Some (final_orderid Sample.clock None)) (Some "transfer") None None d1 in
  json_get "success" again.1 = None ∧ db again.2 = d1 ∧
  (Sample.alice = Sample.alice → Sample.bob = Sample.bob → (0 < 30)%Q →
   json_get "code" again.1 = Some (JText "DUPLICATE_ORDERID")).
Proof.
  apply (handle_payment_order_id_used_once Sample.clock Sample.alice Sample.bob
           30 None (Some "transfer") None None Sample.ledger
           Sample.clock Sample.alice Sample.bob 30 (Some "transfer") None None).
  vm_compute. reflexivity.
Defined.

(** After a successful payment of a whole number of hundredths,
    [get_user_balance] gives the sender's earlier balance less the amount
    and the receiver's earlier balance plus the amount, and the same
    balance as before for every other account. *)
Theorem get_user_balance_after_payment e sid rid a o b n c d cents :
  (a == cents # 100)%Q →
  json_get "success" (handle_payment e sid rid a o b n c d).1 = Some (JBool true) →
  let d' := db (handle_payment e sid rid a o b n c d).2 in
  (get_user_balance sid d' == get_user_balance sid d - a)%Q ∧
  (get_user_balance rid d' == get_user_balance rid d + a)%Q ∧
  ∀ k, k ≠ sid → k ≠ rid → get_user_balance k d' = get_user_balance k d.
Proof.
  intros Ha H.
  destruct (handle_payment_cent_aligned e sid rid a o b n c d cents Ha H)
    as (sb & Hsb & Hne & _ & Hbal).
  cbv zeta in *. unfold get_user_balance, select_amount. rewrite Hbal.
  repeat split.
  - rewrite lookup_insert_ne, lookup_insert_eq, Hsb by done. cbn.
    rewrite Ha. unfold of_15_2, Qeq, Qminus, Qplus, Qopp. cbn. lia.
  - rewrite lookup_insert_eq. cbn.
    destruct (balances d !! rid) as [rb|]; cbn;
      rewrite Ha; unfold of_15_2, Qeq, Qplus; cbn; lia.
  - intros k Hs Hr. by rewrite !lookup_insert_ne.
Qed.

Lemma get_user_balance_after_payment_witness :
  let d' := db Sample.usual_payment.2 in
  (get_user_balance Sample.alice d' == get_user_balance Sample.alice Sample.ledger - 30)%Q ∧
  (get_user_balance Sample.bob d' == get_user_balance Sample.bob Sample.ledger + 30)%Q ∧
  ∀ k, k ≠ Sample.alice → k ≠ Sample.bob →
       get_user_balance k d' = get_user_balance k Sample.ledger.
Proof.
  apply (get_user_balance_after_payment Sample.clock Sample.alice Sample.bob
           30 None (Some "transfer") None None Sample.ledger 3000).
  - reflexivity.
  - vm_compute. reflexivity.
Defined.

(** * More about the mutation route *)






Lemma insert_by_created_at_perm m l :
  MutRoute.insert_by_created_at m l ≡ₚ m :: l.
Proof.
  induction l as [|x l IH]; cbn; [done|].
  case_match; [done|]. rewrite IH. apply Permutation_swap.
Qed.

Lemma order_created_at_desc_perm l : MutRoute.order_created_at_desc l ≡ₚ l.
Proof.
  unfold MutRoute.order_created_at_desc.
  induction l as [|x l IH]; cbn; [done|].
  by rewrite insert_by_created_at_perm, IH.
Qed.

Lemma insert_by_created_at_sorted m l :
  StronglySorted (λ m1 m2, m_created_at m2 <= m_created_at m1) l →
  StronglySorted (λ m1 m2, m_created_at m2 <= m_created_at m1)
    (MutRoute.insert_by_created_at m l).
Proof.
  induction 1 as [|x l Hl IH Hx]; cbn.
  - repeat constructor.
  - destruct (Z.leb_spec (m_created_at x) (m_created_at m)).
    + constructor; [by constructor|].
      constructor; [done|]. eapply Forall_impl; [done|]. cbn. lia.
    + constructor; [done|].
      rewrite insert_by_created_at_perm. constructor; [lia|done].
Qed.

Lemma order_created_at_desc_sorted l :
  StronglySorted (λ m1 m2, m_created_at m2 <= m_created_at m1)
    (MutRoute.order_created_at_desc l).
Proof.
  unfold MutRoute.order_created_at_desc.
  induction l as [|x l IH]; cbn; [constructor|].
  by apply insert_by_created_at_sorted.
Qed.

Lemma range_take_drop offset limit l :
  MutRoute.range offset (offset + limit - 1) l
  = take (Z.to_nat limit) (drop (Z.to_nat offset) l).
Proof. unfold MutRoute.range. do 2 f_equal. lia. Qed.

Lemma GET_mutations_Some userId limit offset type d page :
  MutRoute.mutations_of (MutRoute.GET userId limit offset type d) = Some page →
  MutRoute.paginationQuerySchema limit offset = true ∧
  page = MutRoute.page_query userId limit offset d.
Proof.
  unfold MutRoute.GET.
  destruct (MutRoute.paginationQuerySchema limit offset); cbn; [|done].
  by intros [= <-].
Qed.

(** A page never holds more rows than the limit asked for, so never more
    than 100, and holds only rows of the [mutations] table that belong to
    the asking account. *)
Theorem GET_page_bounded_and_own userId limit offset type d page :
  MutRoute.mutations_of (MutRoute.GET userId limit offset type d) = Some page →
  Z.of_nat (length page) <= limit <= 100 ∧
  Forall (λ m, m_user_id m = userId ∧ m ∈ mutations d) page.
Proof.
  intros [Hq ->]%GET_mutations_Some.
  unfold MutRoute.paginationQuerySchema in Hq.
  apply andb_true_iff in Hq as [[Hl1%Z.ltb_lt Hl2%Z.leb_le]%andb_true_iff Ho%Z.leb_le].
  unfold MutRoute.page_query. rewrite range_take_drop. split.
  - rewrite length_take. lia.
  - apply Forall_forall. intros m Hm.
    apply subseteq_take, subseteq_drop in Hm.
    rewrite order_created_at_desc_perm in Hm.
    apply list_elem_of_In, filter_In in Hm as [Hm Hu].
    split; [by apply String.eqb_eq|by apply list_elem_of_In].
Qed.

Lemma GET_page_bounded_and_own_witness :
  Z.of_nat (length (MutRoute.page_query Sample.alice 2 1 Sample.history)) <= 2 <= 100 ∧
  Forall (λ m, m_user_id m = Sample.alice ∧ m ∈ mutations Sample.history)
    (MutRoute.page_query Sample.alice 2 1 Sample.history).
Proof.
  apply (GET_page_bounded_and_own Sample.alice 2 1 (Some credit) Sample.history).
  reflexivity.
Defined.

(** A page lists its rows newest first. *)
Theorem GET_page_newest_first userId limit offset type d page :
  MutRoute.mutations_of (MutRoute.GET userId limit offset type d) = Some page →
  StronglySorted (λ m1 m2, m_created_at m2 <= m_created_at m1) page.
Proof.
  intros [_ ->]%GET_mutations_Some.
  unfold MutRoute.page_query. rewrite range_take_drop.
  pose proof (order_created_at_desc_sorted
                (List.filter (MutRoute.eq_user userId) (mutations d))) as Hs.
  rewrite <- (take_drop (Z.to_nat offset)) in Hs.
  apply StronglySorted_app_1_r in Hs.
  rewrite <- (take_drop (Z.to_nat limit)) in Hs.
  by apply StronglySorted_app_1_l in Hs.
Qed.

Lemma GET_page_newest_first_witness :
  StronglySorted (λ m1 m2, m_created_at m2 <= m_created_at m1)
    (MutRoute.page_query Sample.alice 50 0 Sample.history).
Proof.
  apply (GET_page_newest_first Sample.alice 50 0 None Sample.history).
  reflexivity.
Defined.









(** * The transaction history route *)






Lemma trx_order_newest_last l t :
  Forall (λ x, t_created_at x < t_created_at t) l →
  TrxRoute.order_created_at_desc (l ++ [t])
  = t :: TrxRoute.order_created_at_desc l.
Proof.
  unfold TrxRoute.order_created_at_desc. rewrite foldr_app. cbn.
  induction 1 as [|x l Hx Hl IH]; cbn; [done|].
  rewrite IH. cbn.
  destruct (Z.leb_spec (t_created_at t) (t_created_at x)); [lia|done].
Qed.

Lemma Forall_filter_list {A} (P : A → Prop) (f : A → bool) l :
  Forall P l → Forall P (List.filter f l).
Proof.
  induction 1 as [|x l Hx Hl IH]; cbn; [done|].
  destruct (f x); [by constructor|done].
Qed.

(** A payment shows at once in both histories.  If the call's time is later
    than that of every stored transaction, then after a successful payment
    the first row of the sender's history is the new transaction marked
    [sent], the first row of the receiver's history is the same
    transaction marked [received], and both totals have grown by one. *)
Theorem payment_heads_both_histories e sid rid a o b n c d limit :
  json_get "success" (handle_payment e sid rid a o b n c d).1 = Some (JBool true) →
  MutRoute.paginationQuerySchema limit 0 = true →
  Forall (λ t, t_created_at t < now_utc e) (transactions d) →
  let d' := db (handle_payment e sid rid a o b n c d).2 in
  ∃ t,
    transactions d' = transactions d ++ [t] ∧
    t_sender_id t = sid ∧ t_receiver_id t = rid ∧
    t_orderid t = final_orderid e o ∧
    head <$> TrxRoute.transactions_of (TrxRoute.GET sid limit 0 d')
      = Some (Some {| TrxRoute.transaction := t;
                      TrxRoute.direction_of := TrxRoute.sent |}) ∧
    head <$> TrxRoute.transactions_of (TrxRoute.GET rid limit 0 d')
      = Some (Some {| TrxRoute.transaction := t;
                      TrxRoute.direction_of := TrxRoute.received |}) ∧
    TrxRoute.total_of (TrxRoute.GET sid limit 0 d')
      = Some (TrxRoute.count_query sid d + 1) ∧
    TrxRoute.total_of (TrxRoute.GET rid limit 0 d')
      = Some (TrxRoute.count_query rid d + 1).
Proof.
  intros H%handle_payment_success_applied Hq Hold. cbv zeta in *.
  destruct H as (sb & vr & via & cs & cr & ca & cg & md & mdp & mc & mcp & H).
  destruct_and!. cbn [db] in *.
  match goal with H : db _ = _ |- _ => rewrite H end. cbn [transactions].
  match goal with |- context [transactions d ++ [?x]] => set (t := x) end.
  assert (TrxRoute.involves sid t = true) as Hs
    by (unfold TrxRoute.involves; cbn; by rewrite String.eqb_refl).
  assert (TrxRoute.involves rid t = true) as Hr
    by (unfold TrxRoute.involves; cbn; by rewrite String.eqb_refl, orb_true_r).
  assert (TrxRoute.enrich sid t
          = {| TrxRoute.transaction := t; TrxRoute.direction_of := TrxRoute.sent |})
    as Hes by (unfold TrxRoute.enrich; cbn; by rewrite String.eqb_refl).
  assert (TrxRoute.enrich rid t
          = {| TrxRoute.transaction := t;
               TrxRoute.direction_of := TrxRoute.received |}) as Her.
  { unfold TrxRoute.enrich. cbn.
    match goal with H : (sid =? rid)%string = false |- _ => by rewrite H end. }
  assert (Forall (λ x, t_created_at x < t_created_at t) (transactions d)) as Hold'
    by done.
  assert (t_sender_id t = sid ∧ t_receiver_id t = rid ∧
          t_orderid t = final_orderid e o) as (Hf1 & Hf2 & Hf3) by done.
  clearbody t.
  exists t. do 4 (split; [done|]).
  unfold TrxRoute.GET. rewrite Hq.
  cbn [negb TrxRoute.transactions_of TrxRoute.total_of TrxRoute.total].
  unfold TrxRoute.count_query, TrxRoute.page_query, TrxRoute.range.
  cbn [transactions]. rewrite !List.filter_app. cbn [List.filter].
  rewrite Hs, Hr.
  rewrite !trx_order_newest_last by by apply Forall_filter_list.
  unfold MutRoute.paginationQuerySchema in Hq.
  apply andb_true_iff in Hq as [[Hl1%Z.ltb_lt _]%andb_true_iff _].
  replace (Z.to_nat (0 + limit - 1 - 0 + 1)) with (S (Z.to_nat (limit - 1))) by lia.
  change (Z.to_nat 0) with 0%nat. rewrite !drop_0. cbn [take].
  rewrite !fmap_cons, Hes, Her, !length_app. cbn [length fmap option_fmap option_map head].
  repeat split; f_equal; lia.
Qed.

Lemma payment_heads_both_histories_witness :
  let d' := db Sample.usual_payment.2 in
  ∃ t,
    transactions d' = transactions Sample.ledger ++ [t] ∧
    t_sender_id t = Sample.alice ∧ t_receiver_id t = Sample.bob ∧
    t_orderid t = final_orderid Sample.clock None ∧
    head <$> TrxRoute.transactions_of (TrxRoute.GET Sample.alice 10 0 d')
      = Some (Some {| TrxRoute.transaction := t;
                      TrxRoute.direction_of := TrxRoute.sent |}) ∧
    head <$> TrxRoute.transactions_of (TrxRoute.GET Sample.bob 10 0 d')
      = Some (Some {| TrxRoute.transaction := t;
                      TrxRoute.direction_of := TrxRoute.received |}) ∧
    TrxRoute.total_of (TrxRoute.GET Sample.alice 10 0 d')
      = Some (TrxRoute.count_query Sample.alice Sample.ledger + 1) ∧
    TrxRoute.total_of (TrxRoute.GET Sample.bob 10 0 d')
      = Some (TrxRoute.count_query Sample.bob Sample.ledger + 1).
Proof.
  apply (payment_heads_both_histories Sample.clock Sample.alice Sample.bob 30
           None (Some "transfer") None None Sample.ledger 10).
  - vm_compute. reflexivity.
  - reflexivity.
  - apply Forall_nil_2.
Defined.

(** * API keys and the authentication middleware *)

Lemma sql_and_true a b : Auth.sql_and a b = Some true ↔ a = Some true ∧ b = Some true.
Proof. destruct a as [[]|], b as [[]|]; cbn; split; try done; by intros []. Qed.

Lemma sql_is_true o b : Auth.sql_is o b = Some true ↔ o = Some b.
Proof. destruct o as [[]|], b; cbn; split; by intros [=]. Qed.

Lemma validate_api_key_elem api_keys d key u v :
  (u, v) ∈ Auth.validate_api_key api_keys d key ↔
  v = Some true ∧
  ∃ ak usr,
    api_keys !! key = Some ak ∧ Auth.k_user_id ak = u ∧
    Auth.k_is_active ak = Some true ∧
    users d !! u = Some usr ∧
    u_banned usr = Some false ∧ u_verified usr = Some true.
Proof.
  unfold Auth.validate_api_key.
  destruct (api_keys !! key) as [ak|]; cbn.
  2:{ split; [by intros ?%elem_of_nil|]. by intros (_ & ? & ? & ? & _). }
  destruct (users d !! Auth.k_user_id ak) as [usr|] eqn:Hu; cbn.
  2:{ split; [by intros ?%elem_of_nil|].
      intros (_ & ? & ? & [= <-] & <- & _ & ? & _). congruence. }
  case_bool_decide as Hv; cbn.
  - rewrite list_elem_of_singleton. split.
    + intros [= -> ->]. split; [done|].
      apply sql_and_true in Hv as [[Ha Hb]%sql_and_true Hc].
      apply (proj1 (sql_is_true _ _)) in Ha, Hb, Hc.
      exists ak, usr. repeat split; assumption.
    + intros (-> & ak' & usr' & [= <-] & <- & Ha & Hu' & Hb & Hc).
      by rewrite Hv.
  - split; [by intros ?%elem_of_nil|].
    intros (_ & ak' & usr' & [= <-] & <- & Ha & Hu' & Hb & Hc).
    destruct Hv. rewrite Hu in Hu'. injection Hu' as <-.
    by rewrite Ha, Hb, Hc.
Qed.

(** [validate_api_key] returns at most one row, and a row [(u, v)] exactly
    when the key is stored and active and belongs to [u], and [u] is a user
    that is verified and not banned (a NULL flag counts as failing); the
    row's [is_valid] is then always true. *)
Theorem validate_api_key_rows api_keys d key :
  (length (Auth.validate_api_key api_keys d key) <= 1)%nat ∧
  ∀ u v,
    (u, v) ∈ Auth.validate_api_key api_keys d key ↔
    v = Some true ∧
    ∃ ak usr,
      api_keys !! key = Some ak ∧ Auth.k_user_id ak = u ∧
      Auth.k_is_active ak = Some true ∧
      users d !! u = Some usr ∧
      u_banned usr = Some false ∧ u_verified usr = Some true.
Proof.
  split; [|intros u v; apply validate_api_key_elem].
  unfold Auth.validate_api_key.
  repeat case_match; cbn; lia.
Qed.

Lemma validateApiKey_Some api_keys d key ctx :
  Auth.validateApiKey api_keys d key = Some ctx ↔
  key ≠ "" ∧ Auth.apiKey ctx = Some key ∧
  ∃ u ak usr,
    Auth.userId ctx = Some u ∧ u ≠ "" ∧
    api_keys !! key = Some ak ∧ Auth.k_user_id ak = u ∧
    Auth.k_is_active ak = Some true ∧
    users d !! u = Some usr ∧
    u_banned usr = Some false ∧ u_verified usr = Some true.
Proof.
  pose proof (validate_api_key_elem api_keys d key) as Hrows.
  unfold Auth.validateApiKey, Auth.truthy_string.
  destruct (String.eqb_spec key "") as [->|Hk]; cbn.
  { split; [done|]. by intros [? _]. }
  destruct (Auth.validate_api_key api_keys d key) as [|[u v] rows] eqn:Hv.
  - split; [done|]. intros (_ & _ & u & ak & usr & _ & _ & ? & ? & ? & ? & ? & ?).
    exfalso. eapply elem_of_nil, (Hrows u (Some true)).
    split; [done|]. by exists ak, usr.
  - assert ((u, v) ∈ (u, v) :: rows) as Hin by left.
    apply Hrows in Hin as (-> & ak & usr & Hin). cbn.
    destruct (String.eqb_spec u "") as [->|Hu]; cbn.
    + split; [done|]. intros (_ & _ & u' & ak' & usr' & _ & Hn & ? & ? & _).
      destruct_and!. congruence.
    + split.
      * intros [= <-]. cbn. split; [done|]. split; [done|].
        exists u, ak, usr. destruct_and!. by repeat split.
      * intros (_ & Hkey & u' & ak' & usr' & Hu' & _ & ? & ? & _).
        destruct_and!. destruct ctx as [cu ck]. cbn in *. congruence.
Qed.

(** The middleware lets a request through exactly when its path is outside
    [/api/], or under [/api/webhooks], or it carries a non-empty
    [x-api-key] that is stored and active and whose owner is a verified
    user that is not banned; every refusal is a 401. *)
Theorem apiKeyMiddleware_passes_iff api_keys d request :
  (Auth.apiKeyMiddleware api_keys d request = None ↔
   String.prefix "/api/" (Auth.pathname request) = false ∨
   String.prefix "/api/webhooks" (Auth.pathname request) = true ∨
   ∃ key ak usr,
     Auth.headers request !! "x-api-key" = Some key ∧ key ≠ "" ∧
     api_keys !! key = Some ak ∧ Auth.k_user_id ak ≠ "" ∧
     Auth.k_is_active ak = Some true ∧
     users d !! Auth.k_user_id ak = Some usr ∧
     u_banned usr = Some false ∧ u_verified usr = Some true) ∧
  (∀ r, Auth.apiKeyMiddleware api_keys d request = Some r → Auth.r_status r = 401).
Proof.
  unfold Auth.apiKeyMiddleware.
  destruct (String.prefix "/api/" (Auth.pathname request)); cbn;
    [|by (split; [split; [left|]|])].
  destruct (String.prefix "/api/webhooks" (Auth.pathname request)); cbn;
    [by (split; [split; [right; left|]|])|].
  destruct (Auth.headers request !! "x-api-key") as [key|]; cbn.
  2:{ split; [|by intros r [= <-]]. split; [done|].
      by intros [?|[?|(? & ? & ? & ? & _)]]. }
  unfold Auth.truthy_string.
  destruct (String.eqb_spec key "") as [->|Hk]; cbn.
  { split; [|by intros r [= <-]]. split; [done|].
    by intros [?|[?|(? & ? & ? & [= <-] & ? & _)]]. }
  destruct (Auth.validateApiKey api_keys d key) as [ctx|] eqn:Hv.
  - split; [|done]. split; [|done]. intros _. right; right.
    apply validateApiKey_Some in Hv as (_ & _ & u & ak & usr & ? & ? & ? & <- & ?).
    exists key, ak, usr. destruct_and!. by repeat split.
  - split; [|by intros r [= <-]]. split; [done|].
    intros [?|[?|(key' & ak & usr & [= <-] & _ & Hak & Hu & Hrest)]]; try done.
    assert (Auth.validateApiKey api_keys d key
            = Some {| Auth.userId := Some (Auth.k_user_id ak);
                      Auth.apiKey := Some key |}) as Hv'.
    { apply validateApiKey_Some. cbn. split; [done|]. split; [done|].
      exists (Auth.k_user_id ak), ak, usr. destruct_and!. by repeat split. }
    congruence.
Qed.

(** The identity a route handler works with is read from the request's own
    [x-user-id] and [x-api-key-validated] headers, and the middleware hands
    the request on as it came: a request that carries the valid key of one
    account and names another account in [x-user-id] passes the middleware,
    and [getUserId] on the forwarded request is the named account. *)
Theorem middleware_forwards_client_identity api_keys d request key ctx named :
  Auth.headers request !! "x-api-key" = Some key →
  Auth.validateApiKey api_keys d key = Some ctx →
  Auth.headers request !! "x-user-id" = Some named → named ≠ "" →
  Auth.headers request !! "x-api-key-validated" = Some "true" →
  ∃ forwarded,
    Auth.middleware api_keys d request = Auth.next forwarded ∧
    Auth.getUserId forwarded = inr named.
Proof.
  intros Hkey Hv Hnamed Hne Hval.
  assert (Auth.apiKeyMiddleware api_keys d request = None) as Hpass.
  { unfold Auth.apiKeyMiddleware. case_match; [done|].
    rewrite Hkey, Hv.
    apply validateApiKey_Some in Hv as (Hk%String.eqb_neq & _).
    unfold Auth.truthy_string. by rewrite Hk. }
  exists request. unfold Auth.middleware. rewrite Hpass. split; [done|].
  unfold Auth.getUserId, Auth.requireAuth, Auth.getUserContext.
  rewrite Hnamed, Hval. unfold Auth.truthy_string.
  apply String.eqb_neq in Hne. rewrite Hne. cbn. by rewrite Hne.
Qed.

Lemma middleware_forwards_client_identity_witness :
  ∃ forwarded,
    Auth.middleware AuthSample.api_keys Sample.ledger AuthSample.spoofed
      = Auth.next forwarded ∧
    Auth.getUserId forwarded = inr Sample.bob.
Proof.
  apply (middleware_forwards_client_identity AuthSample.api_keys Sample.ledger
           AuthSample.spoofed "key-of-alice"
           {| Auth.userId := Some Sample.alice;
              Auth.apiKey := Some "key-of-alice" |} Sample.bob).
  - vm_compute. reflexivity.
  - vm_compute. reflexivity.
  - vm_compute. reflexivity.
  - discriminate.
  - vm_compute. reflexivity.
Defined.

(** * The API layer *)

(** ** The route wrapper *)



(** ** [POST /api/pay] *)




Lemma active_user_row k d :
  active_user_exists k d = true ↔
  ∃ u, users d !! k = Some u ∧ u_banned u = Some false.
Proof.
  unfold active_user_exists. destruct (users d !! k) as [u|].
  - rewrite bool_decide_eq_true. split; [by exists u|].
    by intros (u' & [= <-] & ?).
  - split; [done|]. by intros (u' & [=] & ?).
Qed.




(** When the headers name a verified sender and [handle_payment] applies
    the payment, [POST /api/pay] rejects with the TypeError and the
    payment stays applied. *)
Theorem pay_POST_applied_payment_rejects e request body sender user d :
  Auth.headers request !! "x-user-id" = Some sender →
  Auth.headers request !! "x-api-key-validated" = Some "true" →
  sender ≠ "" →
  users d !! sender = Some user → u_verified user = Some true →
  let p :=
    handle_payment e sender (PayRoute.recipientId body) (PayRoute.amount body)
      (PayRoute.orderid body)
      (Some (default "transfer" (PayRoute.bayarvia body)))
      (PayRoute.namaproduk body) (PayRoute.catatan body) d in
  json_get "success" p.1 = Some (JBool true) →
  PayRoute.POST e (Api.parsed body) request d = (Api.rejects_TypeError, db p.2).
Proof.
  intros Hid Hval Hne Hu Hv p Hok. subst p.
  pose proof Hok as Happ. apply handle_payment_success_applied in Happ.
  destruct Happ as (sb & vr & via & cs & cr & ca & cg & md & mdp & mc & mcp
                    & _ & Hself & Hs & Hr & _).
  apply active_user_row in Hs as (u' & Hu' & Hb). cbn in Hu'.
  rewrite Hu in Hu'. injection Hu' as <-.
  apply active_user_row in Hr as (rcp & Hrcp & Hrb). cbn in Hrcp.
  unfold PayRoute.POST, Api.createApiHandler, Api.withRequestLogger, Api.guarded.
  rewrite Hid, Hval. cbn.
  unfold Auth.truthy_string. apply String.eqb_neq in Hne. rewrite Hne. cbn.
  rewrite Hu, Hb, Hv. cbn.
  unfold PayRoute.handler. cbn. rewrite Hself, Hrcp, Hrb. cbn.
  destruct (handle_payment _ _ _ _ _ _ _ _ _) as [result s]. cbn in *.
  by rewrite Hok.
Qed.

Lemma pay_POST_applied_payment_rejects_witness :
  PayRoute.POST Sample.clock
    (Api.parsed (RouteSample.pay Sample.bob 30))
    (RouteSample.from Sample.alice) Sample.ledger
  = (Api.rejects_TypeError, db Sample.usual_payment.2).
Proof.
  apply (pay_POST_applied_payment_rejects Sample.clock
           (RouteSample.from Sample.alice) (RouteSample.pay Sample.bob 30)
           Sample.alice Sample.active Sample.ledger).
  - vm_compute. reflexivity.
  - vm_compute. reflexivity.
  - discriminate.
  - vm_compute. reflexivity.
  - reflexivity.
  - vm_compute. reflexivity.
Defined.



(** ** [/api/balance] *)

(** Setting a balance and reading it back: for an amount of whole
    hundredths within NUMERIC(15,2), and a caller who has a balance row or
    at least a user row, the handler of [POST] stores the amount and hands
    it back, and the handler of [GET] then hands back the same amount. *)
Theorem balance_POST_handler_then_GET_handler e context u amount c d :
  Api.userId context = Some u →
  (amount == c # 100)%Q → Z.abs c < 10 ^ 15 →
  is_Some (balances d !! u) ∨ is_Some (users d !! u) →
  ∃ d' v,
    BalanceRoute.POST_handler e context amount d
      = (inr (Api.an_object (of_15_2 c)), d') ∧
    balances d' !! u = Some {| b_amount := c; b_updated_at := now_utc e |} ∧
    BalanceRoute.GET_handler context d' = (inr (Api.an_object v), d') ∧
    (v == amount)%Q.
Proof.
  intros Hctx Ha Hc Hrow.
  pose proof (to_15_2_in_range amount c Ha Hc) as Hcast.
  pose (d' := set_balances
                <[u := {| b_amount := c; b_updated_at := now_utc e |}]> d).
  assert (balances d' !! u
          = Some {| b_amount := c; b_updated_at := now_utc e |}) as Hd'.
  { subst d'. cbn. by rewrite lookup_insert_eq. }
  assert (select_amount u d' = Some (of_15_2 c)) as Hsel.
  { unfold select_amount. by rewrite Hd'. }
  exists d', (BalanceRoute.or_zero (of_15_2 c)).
  split; [|split; [done|split]].
  - unfold BalanceRoute.POST_handler. rewrite Hctx.
    change (default "" (Some u)) with u.
    unfold select_amount at 1.
    destruct (balances d !! u) as [row|] eqn:Hb; cbn [fmap option_fmap option_map].
    + erewrite update_balance_run; [|done|done]. cbn [db].
      change (set_balances _ d) with d'. by rewrite Hsel.
    + destruct Hrow as [[? [=]]|Hu].
      erewrite insert_balance_run; [|done|done|].
      * cbn [db]. change (set_balances _ d) with d'. by rewrite Hsel.
      * unfold user_exists. cbn. by apply bool_decide_eq_true.
  - unfold BalanceRoute.GET_handler. rewrite Hctx.
    change (default "" (Some u)) with u.
    by rewrite (get_user_balance_row u d' _ Hd').
  - unfold BalanceRoute.or_zero. cbn [b_amount].
    destruct (Qeq_bool (of_15_2 c) 0) eqn:H0.
    + apply Qeq_bool_iff in H0. by rewrite Ha, <- H0.
    + by rewrite Ha.
Qed.

Lemma balance_POST_handler_then_GET_handler_witness :
  ∃ d' v,
    BalanceRoute.POST_handler Sample.clock
      {| Api.request := RouteSample.from Sample.carol;
         Api.userId := Some Sample.carol |} (1250 # 100) Sample.ledger
      = (inr (Api.an_object (of_15_2 1250)), d') ∧
    balances d' !! Sample.carol
      = Some {| b_amount := 1250; b_updated_at := now_utc Sample.clock |} ∧
    BalanceRoute.GET_handler
      {| Api.request := RouteSample.from Sample.carol;
         Api.userId := Some Sample.carol |} d'
      = (inr (Api.an_object v), d') ∧
    (v == 1250 # 100)%Q.
Proof.
  apply (balance_POST_handler_then_GET_handler Sample.clock
           {| Api.request := RouteSample.from Sample.carol;
              Api.userId := Some Sample.carol |}
           Sample.carol (1250 # 100) 1250 Sample.ledger).
  - reflexivity.
  - reflexivity.
  - vm_compute. reflexivity.
  - right. vm_compute. by eexists.
Defined.

(** The handler of [POST /api/balance] writes at most the caller's balance
    row: users, transactions and mutations stay as they were, so the new
    amount is recorded by no mutation row, and every other balance row is
    untouched. *)
Theorem balance_POST_handler_frame e context amount d :
  let d' := (BalanceRoute.POST_handler e context amount d).2 in
  users d' = users d ∧ transactions d' = transactions d ∧
  mutations d' = mutations d ∧
  ∀ k, k ≠ default "" (Api.userId context) →
       balances d' !! k = balances d !! k.
Proof.
  cbv zeta. unfold BalanceRoute.POST_handler.
  set (u := default "" (Api.userId context)).
  destruct (select_amount u d) as [existing|] eqn:Hsel.
  - destruct (update_balance e u _ _) as [err|j s|x s] eqn:Hup; cbn; [done..|].
    apply update_balance_Next in Hup. cbn in Hup.
    unfold select_amount in Hsel.
    destruct (balances d !! u) as [row|]; [|done].
    destruct Hup as (c & _ & ->). cbn.
    assert (∀ k, k ≠ u →
              <[u := {| b_amount := c; b_updated_at := now_utc e |}]>
                (balances d) !! k = balances d !! k) as Hk
      by (intros k ?; by rewrite lookup_insert_ne).
    by case_match.
  - destruct (insert_balance e u amount _) as [err|j s|x s] eqn:Hin; cbn;
      [done..|].
    apply insert_balance_Next in Hin as (c & _ & _ & ->). cbn.
    assert (∀ k, k ≠ u →
              <[u := {| b_amount := c; b_updated_at := now_utc e |}]>
                (balances d) !! k = balances d !! k) as Hk
      by (intros k ?; by rewrite lookup_insert_ne).
    by case_match.
Qed.

(** ** Requests as the handlers receive them *)

(** The middleware never attaches an identity.  A request that reaches the
    handlers without an [x-api-key-validated] header of its own, valid key
    or not, is refused everywhere: [getUserId] throws, the two history
    routes answer 401, and so does every route built by [createApiHandler]
    that requires authentication, without running its handler. *)
Theorem middleware_attaches_no_identity api_keys d request forwarded :
  Auth.headers request !! "x-api-key-validated" ≠ Some "true" →
  Auth.middleware api_keys d request = Auth.next forwarded →
  Auth.getUserId forwarded
    = inl "Unauthorized: Missing or invalid authentication" ∧
  (∀ limit offset type d',
     History.mut_GET forwarded limit offset type d'
     = MutRoute.createErrorResponse "Authentication required" "UNAUTHORIZED" 401) ∧
  (∀ limit offset d',
     History.trx_GET forwarded limit offset d'
     = TrxRoute.createErrorResponse "Authentication required" "UNAUTHORIZED" 401) ∧
  (∀ T validateUser (handler : Api.ApiHandlerFunction T) d',
     Api.createApiHandler true validateUser handler forwarded d'
     = (Api.resolves
          (Api.a_Response
             (Api.createErrorResponse
                (Api.ErrorFactory.unauthorized (Some "Authentication required")))),
        d')).
Proof.
  intros Hval Hnext. unfold Auth.middleware in Hnext.
  destruct (Auth.apiKeyMiddleware api_keys d request); [done|].
  injection Hnext as <-.
  assert (Auth.getUserId request
          = inl "Unauthorized: Missing or invalid authentication") as Hid.
  { assert (Auth.getUserContext request = None) as Hctx.
    { unfold Auth.getUserContext.
      destruct (Auth.headers request !! "x-user-id"); [|done].
      destruct (Auth.headers request !! "x-api-key-validated") as [v|]; [|done].
      destruct (String.eqb_spec v "true") as [->|Hv]; [done|].
      repeat (case_match; try done); by subst. }
    unfold Auth.getUserId, Auth.requireAuth. by rewrite Hctx. }
  split; [done|]. split; [|split].
  - intros. unfold History.mut_GET. rewrite Hid. reflexivity.
  - intros. unfold History.trx_GET. rewrite Hid. reflexivity.
  - intros. unfold Api.createApiHandler, Api.withRequestLogger, Api.guarded.
    destruct (Auth.headers request !! "x-user-id"); [|done].
    case_bool_decide; done.
Qed.

Lemma middleware_attaches_no_identity_witness :
  Auth.getUserId AuthSample.honest
    = inl "Unauthorized: Missing or invalid authentication" ∧
  (∀ limit offset type d',
     History.mut_GET AuthSample.honest limit offset type d'
     = MutRoute.createErrorResponse "Authentication required" "UNAUTHORIZED" 401) ∧
  (∀ limit offset d',
     History.trx_GET AuthSample.honest limit offset d'
     = TrxRoute.createErrorResponse "Authentication required" "UNAUTHORIZED" 401) ∧
  (∀ T validateUser (handler : Api.ApiHandlerFunction T) d',
     Api.createApiHandler true validateUser handler AuthSample.honest d'
     = (Api.resolves
          (Api.a_Response
             (Api.createErrorResponse
                (Api.ErrorFactory.unauthorized (Some "Authentication required")))),
        d')).
Proof.
  apply (middleware_attaches_no_identity AuthSample.api_keys Sample.ledger
           AuthSample.honest AuthSample.honest).
  - vm_compute. discriminate.
  - vm_compute. reflexivity.
Defined.

(** ** The metrics collector *)

Lemma recorded_snoc events ev :
  PerformanceMetrics.recorded (events ++ [ev])
  = PerformanceMetrics.record (PerformanceMetrics.recorded events) ev.
Proof. unfold PerformanceMetrics.recorded. by rewrite foldl_app. Qed.

Lemma at_endpoint_snoc endpoint events ep dur ok :
  PerformanceMetrics.at_endpoint endpoint (events ++ [(ep, dur, ok)])
  = PerformanceMetrics.at_endpoint endpoint events
    ++ (if String.eqb ep endpoint then [(dur, ok)] else []).
Proof.
  unfold PerformanceMetrics.at_endpoint.
  rewrite List.filter_app, fmap_app. cbn.
  by destruct (String.eqb ep endpoint).
Qed.

(** The entry of an endpoint, from the requests recorded for it. *)
Lemma recorded_lookup endpoint events :
  let l := PerformanceMetrics.at_endpoint endpoint events in
  match PerformanceMetrics.recorded events !! endpoint with
  | None => l = []
  | Some x =>
      l ≠ [] ∧
      PerformanceMetrics.count x = Z.of_nat (length l) ∧
      PerformanceMetrics.errorCount x
        = Z.of_nat (length (List.filter (λ p : Z * bool, negb p.2) l)) ∧
      PerformanceMetrics.totalDuration x = foldr Z.add 0 l.*1 ∧
      (∃ mn, PerformanceMetrics.minDuration x = Some mn ∧ mn ∈ l.*1 ∧
             Forall (λ dur, mn <= dur) l.*1) ∧
      Forall (λ dur, dur <= PerformanceMetrics.maxDuration x) l.*1 ∧
      (PerformanceMetrics.maxDuration x = 0
       ∨ PerformanceMetrics.maxDuration x ∈ l.*1)
  end.
Proof.
  cbv zeta. induction events as [|[[ep dur] ok] events IH] using rev_ind.
  { done. }
  rewrite recorded_snoc, at_endpoint_snoc.
  unfold PerformanceMetrics.record, PerformanceMetrics.recordRequest.
  cbv beta iota zeta.
  destruct (String.eqb_spec ep endpoint) as [->|Hne].
  2:{ rewrite lookup_insert_ne by done. by rewrite app_nil_r. }
  rewrite lookup_insert_eq.
  set (l := PerformanceMetrics.at_endpoint endpoint events) in *.
  destruct (PerformanceMetrics.recorded events !! endpoint) as [x|]; cbn.
  - destruct IH as (Hl & Hc & He & Ht & (mn & Hmn & Hin & Hle) & Hmax & Hmx).
    split; [by destruct l|].
    rewrite length_app, List.filter_app, length_app, fmap_app, foldr_app.
    cbn. split; [lia|]. split; [destruct ok; cbn; lia|].
    split.
    { rewrite Ht. clear. induction (l.*1) as [|a t IHt]; cbn; lia. }
    split.
    { rewrite Hmn. exists (Z.min mn dur). split; [done|]. split.
      - rewrite elem_of_app, list_elem_of_singleton.
        destruct (Z.min_spec mn dur) as [[_ ->]|[_ ->]]; auto.
      - apply Forall_app. split.
        + eapply Forall_impl; [exact Hle|]. intros y Hy. cbv beta in Hy. lia.
        + apply Forall_singleton. lia. }
    split.
    { apply Forall_app. split.
      - eapply Forall_impl; [exact Hmax|]. intros y Hy. cbv beta in Hy. lia.
      - apply Forall_singleton. lia. }
    destruct (Z.max_spec (PerformanceMetrics.maxDuration x) dur)
      as [[_ ->]|[_ ->]].
    + right. rewrite elem_of_app, list_elem_of_singleton. auto.
    + destruct Hmx as [?|?]; [by left|right].
      rewrite elem_of_app. auto.
  - rewrite IH. cbn. split; [done|]. split; [done|].
    split; [by destruct ok|]. split; [lia|].
    split.
    { exists dur. split; [done|]. split; [by apply list_elem_of_singleton|].
      by apply Forall_singleton. }
    split; [apply Forall_singleton; lia|].
    destruct (Z.max_spec 0 dur) as [[_ ->]|[_ ->]].
    + right. by apply list_elem_of_singleton.
    + by left.
Qed.

(** After any sequence of recorded requests an endpoint has an entry
    exactly when a request was recorded for it, and the entry describes
    that endpoint's requests only: [count] is their number, [errorCount]
    the number of failed ones, [totalDuration] the sum of their durations;
    [minDuration] is one of these durations and none is smaller; none is
    larger than [maxDuration], which is one of them or the initial 0; and
    the total lies between [count] times the one and [count] times the
    other. *)
Theorem recorded_entry events endpoint :
  let l := PerformanceMetrics.at_endpoint endpoint events in
  (PerformanceMetrics.recorded events !! endpoint = None ↔ l = []) ∧
  ∀ x, PerformanceMetrics.recorded events !! endpoint = Some x →
    PerformanceMetrics.count x = Z.of_nat (length l) ∧
    PerformanceMetrics.errorCount x
      = Z.of_nat (length (List.filter (λ p : Z * bool, negb p.2) l)) ∧
    PerformanceMetrics.totalDuration x = foldr Z.add 0 l.*1 ∧
    0 <= PerformanceMetrics.errorCount x <= PerformanceMetrics.count x ∧
    ∃ mn,
      PerformanceMetrics.minDuration x = Some mn ∧ mn ∈ l.*1 ∧
      (∀ dur, dur ∈ l.*1 → mn <= dur <= PerformanceMetrics.maxDuration x) ∧
      (PerformanceMetrics.maxDuration x = 0
       ∨ PerformanceMetrics.maxDuration x ∈ l.*1) ∧
      PerformanceMetrics.count x * mn <= PerformanceMetrics.totalDuration x
        <= PerformanceMetrics.count x * PerformanceMetrics.maxDuration x.
Proof.
  pose proof (recorded_lookup endpoint events) as H. cbv zeta in *.
  destruct (PerformanceMetrics.recorded events !! endpoint) as [x|];
    [|by split].
  destruct H as (Hl & Hc & He & Ht & (mn & Hmn & Hin & Hle) & Hmax & Hmx).
  split; [done|]. intros ? [= <-].
  split; [done|]. split; [done|]. split; [done|]. split.
  { split; [lia|]. rewrite He, Hc.
    pose proof (List.filter_length_le (λ p : Z * bool, negb p.2)
      (PerformanceMetrics.at_endpoint endpoint events)). lia. }
  exists mn. split; [done|]. split; [done|].
  rewrite Forall_forall in Hle, Hmax. split; [|split; [done|]].
  { intros dur Hd. split; [by apply Hle|by apply Hmax]. }
  rewrite Hc, Ht, <- (length_fmap fst).
  revert Hle Hmax. clear.
  generalize ((PerformanceMetrics.at_endpoint endpoint events).*1).
  induction l as [|a l IH]; intros Hle Hmax; [cbn; lia|].
  assert (mn <= a <= PerformanceMetrics.maxDuration x)
    by (split; [apply Hle|apply Hmax]; left).
  destruct IH as [? ?].
  { intros ??; apply Hle; by right. }
  { intros ??; apply Hmax; by right. }
  cbn [length foldr]. lia.
Qed.

Lemma add_entry_comm j1 z1 j2 z2 y :
  PerformanceMetrics.add_entry j1 z1 (PerformanceMetrics.add_entry j2 z2 y)
  = PerformanceMetrics.add_entry j2 z2 (PerformanceMetrics.add_entry j1 z1 y).
Proof. unfold PerformanceMetrics.add_entry. cbn. f_equal; lia. Qed.

Lemma system_totals_recordRequest endpoint duration success m :
  PerformanceMetrics.system_totals
    (PerformanceMetrics.recordRequest endpoint duration success m)
  = {| PerformanceMetrics.totalRequests :=
         PerformanceMetrics.totalRequests (PerformanceMetrics.system_totals m) + 1;
       PerformanceMetrics.totalErrors :=
         PerformanceMetrics.totalErrors (PerformanceMetrics.system_totals m)
         + (if success then 0 else 1);
       PerformanceMetrics.sumDuration :=
         PerformanceMetrics.sumDuration (PerformanceMetrics.system_totals m)
         + duration |}.
Proof.
  unfold PerformanceMetrics.recordRequest, PerformanceMetrics.system_totals.
  destruct (m !! endpoint) as [existing|] eqn:Hk; cbn.
  - rewrite <- insert_delete_eq.
    rewrite (map_fold_delete_L _ _ endpoint existing m);
      [|intros; apply add_entry_comm|done].
    rewrite map_fold_insert_L;
      [|intros; apply add_entry_comm|apply lookup_delete_eq].
    unfold PerformanceMetrics.add_entry. cbn. f_equal; lia.
  - rewrite map_fold_insert_L; [|intros; apply add_entry_comm|done].
    unfold PerformanceMetrics.add_entry. cbn. f_equal; lia.
Qed.

(** The sums [GET /api/metrics] computes over the entries are the sums
    over all recorded requests: their number, the number of failed ones,
    and the sum of their durations. *)
Theorem system_totals_recorded events :
  PerformanceMetrics.system_totals (PerformanceMetrics.recorded events)
  = {| PerformanceMetrics.totalRequests := Z.of_nat (length events);
       PerformanceMetrics.totalErrors :=
         Z.of_nat (length (List.filter (λ ev : PerformanceMetrics.event, negb ev.2)
                             events));
       PerformanceMetrics.sumDuration :=
         foldr Z.add 0 ((λ ev : PerformanceMetrics.event, ev.1.2) <$> events) |}.
Proof.
  induction events as [|[[ep dur] ok] events IH] using rev_ind.
  { done. }
  rewrite recorded_snoc. unfold PerformanceMetrics.record. cbv beta iota.
  rewrite system_totals_recordRequest, IH. cbn [PerformanceMetrics.totalRequests
    PerformanceMetrics.totalErrors PerformanceMetrics.sumDuration].
  rewrite length_app, List.filter_app, length_app, fmap_app, foldr_app. cbn.
  f_equal.
  - lia.
  - destruct ok; cbn; lia.
  - generalize ((λ ev : PerformanceMetrics.event, ev.1.2) <$> events).
    intros l. induction l as [|a l IHl]; cbn; lia.
Qed.

(** ** The health handler *)

Lemma run_checks_from results checks :
  let final := foldl Api.run_check results checks in
  (Api.status final = "healthy" ↔
   Api.status results = "healthy" ∧
   Forall (λ c : string * Api.check_outcome, c.2 = Api.returned true) checks) ∧
  Api.checks final
  = Api.checks results ++
    ((λ c : string * Api.check_outcome,
        (c.1, match c.2 with
              | Api.returned true => Api.pass
              | Api.returned false => Api.fail
              | Api.threw _ => Api.error
              end)) <$> checks).
Proof.
  cbv zeta. revert results.
  induction checks as [|[name outcome] checks IH]; intros results.
  { cbn. rewrite app_nil_r. split; [|done]. split; [done|by intros []]. }
  cbn [foldl]. destruct (IH (Api.run_check results (name, outcome))) as [Hs Hc].
  rewrite Hs, Hc, Forall_cons. cbn.
  destruct outcome as [[]|msg]; cbn; rewrite <- app_assoc; cbn;
    (split; [|done]); split; try done; try tauto.
  - by intros [[=] _].
  - by intros [_ [[=] _]].
  - by intros [[=] _].
  - by intros [_ [[=] _]].
Qed.

(** The health handler reports "healthy" exactly when every check returned
    true, and lists the checks in their order, a check that returned true
    as passed, one that returned false as failed, one that threw as an
    error. *)
Theorem createHealthCheckHandler_healthy_iff checks :
  let results := Api.createHealthCheckHandler checks in
  (Api.status results = "healthy" ↔
   Forall (λ c : string * Api.check_outcome, c.2 = Api.returned true) checks) ∧
  Api.checks results
  = (λ c : string * Api.check_outcome,
       (c.1, match c.2 with
             | Api.returned true => Api.pass
             | Api.returned false => Api.fail
             | Api.threw _ => Api.error
             end)) <$> checks.
Proof.
  cbv zeta. unfold Api.createHealthCheckHandler.
  destruct (run_checks_from {| Api.status := "healthy"; Api.checks := [] |} checks)
    as [Hs Hc].
  split; [|done]. rewrite Hs. cbn. tauto.
Qed.
